(** * gnome-calendar GUI widgets: the import dialog and the search button

    A shallow embedding of [src/gui/importer/gcal-import-dialog.c], of
    [gcal-search-button.c] and of [gcal-calendar-button.c].  Widgets are records of the fields the callbacks
    read and write; toolkit objects reached through pointers that may be
    [NULL] are [option]s; calls into the calendar backend and the search
    engine are recorded as data (spawned tasks, traces of calls, outstanding
    queries) so that statements can count and order them. *)

From Stdlib Require Import List String Ascii ZArith Lia Bool Arith DecimalString Permutation.
Import ListNotations.

Local Open Scope string_scope.
Local Open Scope list_scope.
Local Open Scope Z_scope.

(** ** GLib scalar types and string formatting *)

Module GLib.

Definition G_MAXINT : Z := 2147483647.

(** A [gint] is 32 bits wide; [wrap_gint] is the two's complement
    reading of a result computed modulo 2^32. *)
Definition wrap_gint (z : Z) : Z := (z + 2147483648) mod 4294967296 - 2147483648.

(** The decimal digits that [%d] prints for a [gint]. *)
Definition string_of_gint (n : Z) : string := NilZero.string_of_int (Z.to_int n).

(** [g_strdup_printf (fmt, n)] for a format whose only directive is a
    [%d]: the first [%d] is replaced by the digits of [n]. *)
Fixpoint printf_d (fmt : string) (n : Z) : string :=
  match fmt with
  | EmptyString => EmptyString
  | String c rest =>
      match rest with
      | EmptyString => String c EmptyString
      | String c' rest' =>
          if (Ascii.eqb c "%" && Ascii.eqb c' "d")%bool
          then (string_of_gint n ++ rest')%string
          else String c (printf_d rest n)
      end
  end.

(** [g_strdup_printf (fmt, s)] for a format whose only directive is a
    [%s]: the first [%s] is replaced by [s], byte for byte. *)
Fixpoint printf_s (fmt : string) (s : string) : string :=
  match fmt with
  | EmptyString => EmptyString
  | String c rest =>
      match rest with
      | EmptyString => String c EmptyString
      | String c' rest' =>
          if (Ascii.eqb c "%" && Ascii.eqb c' "s")%bool
          then (s ++ rest')%string
          else String c (printf_s rest s)
      end
  end.

(** [g_dngettext] without a translation catalogue (the C locale): the
    singular message for exactly one, the plural one otherwise.  The count
    is passed as a [gulong]; a negative [gint] converts to a large value,
    never to 1. *)
Definition g_dngettext (msgid msgid_plural : string) (n : Z) : string :=
  if n =? 1 then msgid else msgid_plural.

(** A [GError] is represented by its message. *)
Definition GError : Type := string.

(** A [GCancellable] object: all that is observed of it is whether it
    has been cancelled. *)
Record GCancellable : Type := { is_cancelled : bool }.

Definition g_cancellable_new : GCancellable := {| is_cancelled := false |}.

End GLib.

Import GLib.

(** ** The import dialog ([gcal-import-dialog.c]) *)

Module ImportDialog.

(** Objects of the calendar libraries are opaque; they are told apart by
    an identifier. *)
Definition ICalComponent : Type := nat.
Definition ICalTimezone : Type := nat.
Definition ECalClient : Type := nat.

Record GFile : Type := { g_file_get_basename : string }.

Record GcalCalendar : Type := { gcal_calendar_get_client : ECalClient }.

(** What construction leaves selected in the calendar combo row
    ([setup_calendars] asks the calendar manager, which is outside this
    file; [on_calendar_combo_row_selected_item_changed_cb] copies the
    selected item into the dialog). *)
Record GcalContext : Type := { context_selected_calendar : option GcalCalendar }.

(** A file row as the dialog sees it.  Both getters return a [GPtrArray]
    pointer, [NULL] until (and unless) the file has been parsed. *)
Record GcalImportFileRow : Type := {
  row_id : nat;
  row_file : GFile;
  row_visible : bool;
  gcal_import_file_row_get_ical_components : option (list ICalComponent);
  gcal_import_file_row_get_timezones : option (list ICalTimezone)
}.

(** Modelled from the spec: the row widget ([gcal-import-file-row.c]) is
    not among the sources.  The spec has the dialog wait "until at least
    one row becomes visible" and the row parse its file asynchronously, so
    a new row is not visible and has parsed nothing yet. *)
Definition gcal_import_file_row_new (id : nat) (file : GFile) : GcalImportFileRow :=
  {| row_id := id;
     row_file := file;
     row_visible := false;
     gcal_import_file_row_get_ical_components := None;
     gcal_import_file_row_get_timezones := None |}.

Definition gtk_widget_set_visible_row (v : bool) (r : GcalImportFileRow) : GcalImportFileRow :=
  {| row_id := row_id r;
     row_file := row_file r;
     row_visible := v;
     gcal_import_file_row_get_ical_components := gcal_import_file_row_get_ical_components r;
     gcal_import_file_row_get_timezones := gcal_import_file_row_get_timezones r |}.

(** An [AdwPreferencesGroup] holding one row, with an optional title. *)
Record AdwPreferencesGroup : Type := {
  group_title : option string;
  group_row : nat
}.

Record ImportData : Type := {
  client : ECalClient;
  components : list ICalComponent;
  zones : list ICalTimezone
}.

(** A [GTask] as created by the import button: its cancellable and its
    task data.  Its thread function is [import_data_thread] and its
    completion callback [on_events_created_cb]. *)
Record GTask : Type := {
  task_cancellable : option GCancellable;
  task_data : ImportData
}.

Record GcalImportDialog : Type := {
  calendars_box : list AdwPreferencesGroup;
  placeholder_spinner_visible : bool;
  rows : list GcalImportFileRow;
  selected_calendar : option GcalCalendar;
  cancellable : option GCancellable;
  n_events : Z;
  n_files : Z;
  title : string;
  sensitive : bool;
  closed : bool
}.

(** Modelled from the spec: the widget template
    ([gcal-import-dialog.ui]) is not among the sources.  A new object has
    its private fields zeroed; the template shows the "loading placeholder"
    of the spec; its title is replaced by the first file-loaded
    callback. *)
Definition g_object_new (context : GcalContext) : GcalImportDialog :=
  {| calendars_box := [];
     placeholder_spinner_visible := true;
     rows := [];
     selected_calendar := context_selected_calendar context;
     cancellable := None;
     n_events := 0;
     n_files := 0;
     title := EmptyString;
     sensitive := true;
     closed := false |}.

(** *** Auxiliary methods *)

Definition add_file (self : GcalImportDialog) (file : GFile) (multiple_files : bool)
  : GcalImportDialog :=
  let row := gcal_import_file_row_new (List.length (rows self)) file in
  let group :=
    {| group_title := if multiple_files then Some (g_file_get_basename file) else None;
       group_row := row_id row |} in
  {| calendars_box := calendars_box self ++ [group];
     placeholder_spinner_visible := false;
     rows := row :: rows self;
     selected_calendar := selected_calendar self;
     cancellable := cancellable self;
     n_events := n_events self;
     n_files := n_files self;
     title := title self;
     sensitive := sensitive self;
     closed := closed self |}.

Definition set_n_files (n : Z) (self : GcalImportDialog) : GcalImportDialog :=
  {| calendars_box := calendars_box self;
     placeholder_spinner_visible := placeholder_spinner_visible self;
     rows := rows self;
     selected_calendar := selected_calendar self;
     cancellable := cancellable self;
     n_events := n_events self;
     n_files := n;
     title := title self;
     sensitive := sensitive self;
     closed := closed self |}.

(** The [for] loop of [setup_files_list]: [iter] walks the list while the
    local [n_files], a [gint], counts the nodes ([n_files++], taken to
    wrap around past [G_MAXINT]). *)
Fixpoint setup_files_list_loop (has_multiple : bool) (iter : list GFile)
    (n_files : Z) (self : GcalImportDialog) : Z * GcalImportDialog :=
  match iter with
  | [] => (n_files, self)
  | data :: next =>
      setup_files_list_loop has_multiple next
        (wrap_gint (n_files + 1)) (add_file self data has_multiple)
  end.

(** [setup_files_list] reads [list->next] first: on the empty list
    ([NULL]) that is a null dereference, rendered as [None]. *)
Definition setup_files_list (self : GcalImportDialog) (list : list GFile)
  : option GcalImportDialog :=
  match list with
  | [] => None
  | _ :: next =>
      let has_multiple := match next with [] => false | _ :: _ => true end in
      let '(n_files, self') := setup_files_list_loop has_multiple list 0 self in
      Some (set_n_files n_files self')
  end.

Definition gcal_import_dialog_new_for_file_list (context : GcalContext)
    (file_list : list GFile) : option GcalImportDialog :=
  setup_files_list (g_object_new context) file_list.

(** *** Callbacks *)

Inductive TaskResult : Type :=
| TaskError (error : GError)
| TaskBoolean (b : bool).

(** What the callbacks and the worker thread do to the outside world. *)
Inductive Event : Type :=
| AddTimezone (c : ECalClient) (zone : ICalTimezone)
| CreateObjects (c : ECalClient) (comps : list ICalComponent)
| Warning (message : string).

Definition adw_dialog_close (self : GcalImportDialog) : GcalImportDialog :=
  {| calendars_box := calendars_box self;
     placeholder_spinner_visible := placeholder_spinner_visible self;
     rows := rows self;
     selected_calendar := selected_calendar self;
     cancellable := cancellable self;
     n_events := n_events self;
     n_files := n_files self;
     title := title self;
     sensitive := sensitive self;
     closed := true |}.

Definition on_events_created_cb (result : TaskResult) (self : GcalImportDialog)
  : GcalImportDialog * list Event :=
  let log :=
    match result with
    | TaskError message => [Warning (printf_s "Error creating events: %s" message)]
    | TaskBoolean _ => []
    end in
  (adw_dialog_close self, log).

(** The calendar backend and the cancellable as the worker thread meets
    them: the answer of the [k]-th poll of [g_cancellable_is_cancelled],
    of the [k]-th [e_cal_client_add_timezone_sync] ([None]: no error) and
    of [e_cal_client_create_objects_sync] (an error or the new uids). *)
Record Backend : Type := {
  g_cancellable_is_cancelled : nat -> bool;
  e_cal_client_add_timezone_sync : nat -> ECalClient -> ICalTimezone -> option GError;
  e_cal_client_create_objects_sync : ECalClient -> list ICalComponent -> GError + list string
}.

(** The timezone loop of [import_data_thread], at its [k]-th iteration. *)
Fixpoint add_timezones (env : Backend) (c : ECalClient) (k : nat)
    (l : list ICalTimezone) : list Event :=
  match l with
  | [] => []
  | zone :: next =>
      if g_cancellable_is_cancelled env k then []
      else
        AddTimezone c zone ::
        match e_cal_client_add_timezone_sync env k c zone with
        | Some local_error =>
            [Warning (printf_s "Import: Failed to add timezone: %s" local_error)]
        | None => []
        end ++ add_timezones env c (S k) next
  end.

Definition import_data_thread (env : Backend) (id : ImportData)
  : list Event * TaskResult :=
  let trace := add_timezones env (client id) 0 (zones id) in
  let created := e_cal_client_create_objects_sync env (client id) (components id) in
  (trace ++ [CreateObjects (client id) (components id)],
   match created with
   | inl error => TaskError error
   | inr _ => TaskBoolean true
   end).

(** [g_slist_prepend] over a [GPtrArray], index 0 first. *)
Definition prepend_all {A : Type} (array : list A) (slist : list A) : list A :=
  fold_left (fun acc item => item :: acc) array slist.

(** The row loop of [on_import_button_clicked_cb]; both [continue]s skip
    to the next row. *)
Fixpoint collect_rows (l : list GcalImportFileRow)
    (slist : list ICalComponent) (zones : list ICalTimezone)
  : list ICalComponent * list ICalTimezone :=
  match l with
  | [] => (slist, zones)
  | row :: next =>
      match gcal_import_file_row_get_ical_components row with
      | None => collect_rows next slist zones
      | Some ical_components =>
          let slist := prepend_all ical_components slist in
          match gcal_import_file_row_get_timezones row with
          | None => collect_rows next slist zones
          | Some ical_timezones =>
              collect_rows next slist (prepend_all ical_timezones zones)
          end
      end
  end.

Definition start_import (c : GCancellable) (self : GcalImportDialog) : GcalImportDialog :=
  {| calendars_box := calendars_box self;
     placeholder_spinner_visible := placeholder_spinner_visible self;
     rows := rows self;
     selected_calendar := selected_calendar self;
     cancellable := Some c;
     n_events := n_events self;
     n_files := n_files self;
     title := title self;
     sensitive := false;
     closed := closed self |}.

(** The import button.  [None]: the [g_assert] on the selected calendar
    failed.  Otherwise the dialog afterwards and the tasks handed to
    [g_task_run_in_thread]. *)
Definition on_import_button_clicked_cb (self : GcalImportDialog)
  : option (GcalImportDialog * list GTask) :=
  match selected_calendar self with
  | None => None
  | Some calendar =>
      let '(slist, zones) := collect_rows (rows self) [] [] in
      match slist with
      | [] => Some (self, [])
      | _ :: _ =>
          let c := g_cancellable_new in
          let self' := start_import c self in
          let import_data :=
            {| client := gcal_calendar_get_client calendar;
               components := rev slist;
               zones := rev zones |} in
          Some (self', [ {| task_cancellable := cancellable self';
                            task_data := import_data |} ])
      end
  end.

Definition set_row_visible (id : nat) (r : GcalImportFileRow) : GcalImportFileRow :=
  if Nat.eqb (row_id r) id then gtk_widget_set_visible_row true r else r.

(** [events ? events->len : 0] *)
Definition events_len (events : option (list ICalComponent)) : Z :=
  match events with
  | Some array => Z.of_nat (List.length array)
  | None => 0
  end.

(** The [file-loaded] handler.  [events->len] is a [guint], so the sum is
    taken modulo 2^32 and stored back into the [gint] field. *)
Definition on_import_row_file_loaded_cb (row : nat)
    (events : option (list ICalComponent)) (self : GcalImportDialog)
  : GcalImportDialog :=
  let n := wrap_gint (n_events self + events_len events) in
  {| calendars_box := calendars_box self;
     placeholder_spinner_visible := placeholder_spinner_visible self;
     rows := map (set_row_visible row) (rows self);
     selected_calendar := selected_calendar self;
     cancellable := cancellable self;
     n_events := n;
     n_files := n_files self;
     title := printf_d (g_dngettext "Import %d event" "Import %d events" n) n;
     sensitive := sensitive self;
     closed := closed self |}.

(** *** The file row reporting its file

    Modelled from the spec: the row widget is not among the sources.  It
    is "a per-file parser row exposing a file loaded notification carrying
    the parsed component/timezone collections for that file": the row
    keeps the two collections for its getters and emits [file-loaded] with
    the events, which runs the dialog's handler. *)

Definition store_parsed (id : nat) (parsed_components : option (list ICalComponent))
    (parsed_timezones : option (list ICalTimezone)) (r : GcalImportFileRow)
  : GcalImportFileRow :=
  if Nat.eqb (row_id r) id
  then {| row_id := row_id r;
          row_file := row_file r;
          row_visible := row_visible r;
          gcal_import_file_row_get_ical_components := parsed_components;
          gcal_import_file_row_get_timezones := parsed_timezones |}
  else r.

Definition file_loaded (id : nat) (parsed_components : option (list ICalComponent))
    (parsed_timezones : option (list ICalTimezone)) (self : GcalImportDialog)
  : GcalImportDialog :=
  on_import_row_file_loaded_cb id parsed_components
    {| calendars_box := calendars_box self;
       placeholder_spinner_visible := placeholder_spinner_visible self;
       rows := map (store_parsed id parsed_components parsed_timezones) (rows self);
       selected_calendar := selected_calendar self;
       cancellable := cancellable self;
       n_events := n_events self;
       n_files := n_files self;
       title := title self;
       sensitive := sensitive self;
       closed := closed self |}.

(** *** Vocabulary of the specification *)

(** The components, and the timezones, a row has parsed; none while its
    array is [NULL]. *)
Definition row_components (r : GcalImportFileRow) : list ICalComponent :=
  match gcal_import_file_row_get_ical_components r with
  | Some array => array
  | None => []
  end.

Definition row_timezones (r : GcalImportFileRow) : list ICalTimezone :=
  match gcal_import_file_row_get_timezones r with
  | Some array => array
  | None => []
  end.

(** The aggregate batch in the words of the specification: row by row,
    each row's items in their own order. *)
Definition batch_components (self : GcalImportDialog) : list ICalComponent :=
  flat_map row_components (rows self).

Definition batch_timezones (self : GcalImportDialog) : list ICalTimezone :=
  flat_map row_timezones (rows self).

(** The timezones a row contributes in the code: none when the row has
    no component array. *)
Definition contributed_timezones (r : GcalImportFileRow) : list ICalTimezone :=
  match gcal_import_file_row_get_ical_components r with
  | Some _ => row_timezones r
  | None => []
  end.

(** "The loading placeholder is shown until at least one row becomes
    visible, and only then is hidden." *)
Definition spinner_shown_until_row_visible (self : GcalImportDialog) : Prop :=
  placeholder_spinner_visible self = negb (existsb row_visible (rows self)).

(** Reading a trace. *)
Definition timezone_calls (trace : list Event) : list ICalTimezone :=
  flat_map (fun e => match e with AddTimezone _ zone => [zone] | _ => [] end) trace.

Definition create_calls (trace : list Event) : list (list ICalComponent) :=
  flat_map (fun e => match e with CreateObjects _ comps => [comps] | _ => [] end) trace.

Definition warnings (trace : list Event) : list string :=
  flat_map (fun e => match e with Warning message => [message] | _ => [] end) trace.

(** *** Sample dialogs *)

Definition sample_context : GcalContext :=
  {| context_selected_calendar := Some {| gcal_calendar_get_client := 7%nat |} |}.

Definition sample_file (name : string) : GFile := {| g_file_get_basename := name |}.

(** Two files have been added; nothing is loaded yet. *)
Definition two_files_added : GcalImportDialog :=
  add_file (add_file (g_object_new sample_context) (sample_file "a.ics") true)
    (sample_file "b.ics") true.

(** One file has been added; nothing is loaded yet. *)
Definition one_file_added : GcalImportDialog :=
  add_file (g_object_new sample_context) (sample_file "a.ics") false.

(** The second file gave components 4, 5 and timezone 20; the first
    has not been parsed: both its arrays are [NULL]. *)
Definition second_row_loaded : GcalImportDialog :=
  file_loaded 1 (Some [4; 5]%nat) (Some [20%nat]) two_files_added.

(** The first file gave components 1, 2, 3 and timezone 21, the second
    one components 4, 5 and timezone 20. *)
Definition both_rows_loaded : GcalImportDialog :=
  file_loaded 1 (Some [4; 5]%nat) (Some [20%nat])
    (file_loaded 0 (Some [1; 2; 3]%nat) (Some [21%nat]) two_files_added).

(** A backend on which every timezone registration fails and nothing
    is cancelled. *)
Definition failing_timezones : Backend :=
  {| g_cancellable_is_cancelled := fun _ => false;
     e_cal_client_add_timezone_sync := fun _ _ _ => Some "no such zone";
     e_cal_client_create_objects_sync := fun _ comps => inr (map (fun _ => "uid") comps) |}.

End ImportDialog.

(** ** The search button ([gcal-search-button.c]) *)

Module SearchButton.

Definition GcalSearchHit : Type := nat.

(** A [GListModel] of search hits. *)
Definition GListModel : Type := list GcalSearchHit.

(** A query handed to [gcal_search_engine_search] and not finished yet.
    [GCancellable] objects are named by a number; [None] is the [NULL]
    pointer. *)
Record Query : Type := {
  sexp_query : string;
  max_results : Z;
  query_cancellable : option nat
}.

(** The text entry ([self->entry], a [GtkEditable]). *)
Record GtkEditable : Type := {
  text : string;
  width_chars : Z;
  max_width_chars : Z
}.

(** The button with the widgets of its template, together with the two
    things outside it that its callbacks act on: the cancellables that
    have been cancelled and the queries the search engine is working on,
    oldest first. *)
Record World : Type := {
  entry : GtkEditable;
  popover_visible : bool;
  results_listbox : option GListModel;
  reveal_child : bool;
  stack_visible_child : string;
  cancellable : option nat;
  cancelled : list nat;
  outstanding : list Query
}.

(** A callback either runs to its end or, [None], gets stuck. *)
Definition Action : Type := World -> option World.

Definition seq (a b : Action) : Action :=
  fun w => match a w with
           | Some w' => b w'
           | None => None
           end.

Definition lift (f : World -> World) : Action := fun w => Some (f w).

Notation "a ;; b" := (seq a b) (at level 61, right associativity).

Definition set_entry (e : GtkEditable) (w : World) : World :=
  {| entry := e;
     popover_visible := popover_visible w;
     results_listbox := results_listbox w;
     reveal_child := reveal_child w;
     stack_visible_child := stack_visible_child w;
     cancellable := cancellable w;
     cancelled := cancelled w;
     outstanding := outstanding w |}.

Definition gtk_popover_set_visible (b : bool) (w : World) : World :=
  {| entry := entry w;
     popover_visible := b;
     results_listbox := results_listbox w;
     reveal_child := reveal_child w;
     stack_visible_child := stack_visible_child w;
     cancellable := cancellable w;
     cancelled := cancelled w;
     outstanding := outstanding w |}.

Definition gtk_list_box_bind_model (model : option GListModel) (w : World) : World :=
  {| entry := entry w;
     popover_visible := popover_visible w;
     results_listbox := model;
     reveal_child := reveal_child w;
     stack_visible_child := stack_visible_child w;
     cancellable := cancellable w;
     cancelled := cancelled w;
     outstanding := outstanding w |}.

Definition gtk_revealer_set_reveal_child (b : bool) (w : World) : World :=
  {| entry := entry w;
     popover_visible := popover_visible w;
     results_listbox := results_listbox w;
     reveal_child := b;
     stack_visible_child := stack_visible_child w;
     cancellable := cancellable w;
     cancelled := cancelled w;
     outstanding := outstanding w |}.

Definition gtk_stack_set_visible_child_name (name : string) (w : World) : World :=
  {| entry := entry w;
     popover_visible := popover_visible w;
     results_listbox := results_listbox w;
     reveal_child := reveal_child w;
     stack_visible_child := name;
     cancellable := cancellable w;
     cancelled := cancelled w;
     outstanding := outstanding w |}.

Definition set_cancelled (l : list nat) (w : World) : World :=
  {| entry := entry w;
     popover_visible := popover_visible w;
     results_listbox := results_listbox w;
     reveal_child := reveal_child w;
     stack_visible_child := stack_visible_child w;
     cancellable := cancellable w;
     cancelled := l;
     outstanding := outstanding w |}.

Definition set_outstanding (l : list Query) (w : World) : World :=
  {| entry := entry w;
     popover_visible := popover_visible w;
     results_listbox := results_listbox w;
     reveal_child := reveal_child w;
     stack_visible_child := stack_visible_child w;
     cancellable := cancellable w;
     cancelled := cancelled w;
     outstanding := l |}.

Definition gtk_editable_set_width_chars (n : Z) (w : World) : World :=
  set_entry {| text := text (entry w); width_chars := n;
               max_width_chars := max_width_chars (entry w) |} w.

Definition gtk_editable_set_max_width_chars (n : Z) (w : World) : World :=
  set_entry {| text := text (entry w); width_chars := width_chars (entry w);
               max_width_chars := n |} w.

Definition store_text (s : string) (w : World) : World :=
  set_entry {| text := s; width_chars := width_chars (entry w);
               max_width_chars := max_width_chars (entry w) |} w.

(** [gtk_editable_get_text]; the handler allows for a [NULL] answer. *)
Definition gtk_editable_get_text (w : World) : option string := Some (text (entry w)).

(** [g_cancellable_cancel] returns at once on [NULL]. *)
Definition g_cancellable_cancel (c : option nat) (w : World) : World :=
  match c with
  | None => w
  | Some id => set_cancelled (id :: cancelled w) w
  end.

Definition g_cancellable_is_cancelled (c : option nat) (w : World) : bool :=
  match c with
  | None => false
  | Some id => existsb (Nat.eqb id) (cancelled w)
  end.

(** Submitting a query leaves it with the engine until it finishes. *)
Definition gcal_search_engine_search (query : string) (limit : Z)
    (c : option nat) (w : World) : World :=
  set_outstanding
    (outstanding w ++ [ {| sexp_query := query; max_results := limit;
                           query_cancellable := c |} ]) w.

(** Modelled from the spec: the search engine is not among the sources.
    It is "asynchronous, cancellable" and answers "list<Hit> | error": a
    query whose cancellable has been cancelled finishes with an error,
    that is with a [NULL] model, any other one with what the engine
    [found] ([None]: an error of its own). *)
Definition gcal_search_engine_search_finish (q : Query)
    (found : option GListModel) (w : World) : option GListModel :=
  if g_cancellable_is_cancelled (query_cancellable q) w then None else found.

(** The double quote character, and the format of the query. *)
Definition dquote : string := String (ascii_of_nat 34) EmptyString.

Definition sexp_format : string :=
  ("(contains? " ++ dquote ++ "summary" ++ dquote ++ " " ++ dquote ++ "%s" ++ dquote ++ ")")%string.

Section Callbacks.

(** The handlers connected to [notify::text] of the entry. *)
Variable notify_text : Action.

(** [gtk_editable_set_text]: setting the text it already has does
    nothing; otherwise the text is stored and [notify::text] runs its
    handlers before the call returns. *)
Definition gtk_editable_set_text (s : string) : Action :=
  fun w => if String.eqb (text (entry w)) s then Some w
           else notify_text (store_text s w).

Definition show_suggestions : Action :=
  lift (gtk_popover_set_visible true) ;;
  lift (gtk_revealer_set_reveal_child true).

Definition hide_suggestions : Action :=
  lift (gtk_revealer_set_reveal_child false) ;;
  gtk_editable_set_text EmptyString.

Definition set_model (model : option GListModel) : Action :=
  lift (gtk_list_box_bind_model model) ;;
  match model with
  | Some _ => show_suggestions
  | None => hide_suggestions
  end.

(** The completion of query [q], for which the engine [found] a result. *)
Definition on_search_finished_cb (q : Query) (found : option GListModel) : Action :=
  fun w => set_model (gcal_search_engine_search_finish q found w) w.

Definition on_entry_text_changed_cb : Action :=
  fun w =>
    let text := gtk_editable_get_text w in
    (lift (g_cancellable_cancel (cancellable w)) ;;
     match text with
     | None | Some EmptyString => set_model None
     | Some (String _ _ as text) =>
         fun w' => Some (gcal_search_engine_search (printf_s sexp_format text) 50
                           (cancellable w') w')
     end) w.

(** [gtk_popover_popdown] hides the popover, which emits [closed]. *)
Definition on_popover_closed_cb : Action :=
  lift (gtk_editable_set_width_chars 0) ;;
  lift (gtk_editable_set_max_width_chars 0) ;;
  gtk_editable_set_text EmptyString ;;
  lift (gtk_stack_set_visible_child_name "button").

Definition gtk_popover_popdown : Action :=
  fun w => if popover_visible w
           then (lift (gtk_popover_set_visible false) ;; on_popover_closed_cb) w
           else Some w.

(** The handler of the revealer's [notify::child-revealed];
    [child_revealed] is what [gtk_revealer_get_child_revealed] answers. *)
Definition on_results_revealer_child_reveal_state_changed_cb
    (child_revealed : bool) : Action :=
  fun w => if (negb child_revealed && negb (reveal_child w))%bool
           then gtk_popover_popdown w
           else Some w.

(** The engine finishes its [i]-th outstanding query. *)
Definition search_finished (i : nat) (found : option GListModel) : Action :=
  fun w => match nth_error (outstanding w) i with
           | None => None
           | Some q =>
               on_search_finished_cb q found
                 (set_outstanding (firstn i (outstanding w) ++ skipn (S i) (outstanding w)) w)
           end.

End Callbacks.

(** The [notify::text] signal as the template connects it: its one
    handler is [on_entry_text_changed_cb].  Inside that handler the text
    is only ever set to the empty string when it is empty already, so no
    nested emission starts; a nested emission would make the handler
    stuck, and [notify_text_total] shows that it never is. *)
Definition notify_text : Action := on_entry_text_changed_cb (fun _ => None).

(** Modelled from the spec: the widget template
    ([gcal-search-button.ui]) is not among the sources.  A new button has
    its private fields zeroed (no cancellable, no model), an empty entry
    and a closed popover. *)
Definition gcal_search_button_init : World :=
  {| entry := {| text := EmptyString; width_chars := 0; max_width_chars := 0 |};
     popover_visible := false;
     results_listbox := None;
     reveal_child := false;
     stack_visible_child := "button";
     cancellable := None;
     cancelled := [];
     outstanding := [] |}.

(** [gcal_search_button_search], and equally the user editing the entry. *)
Definition gcal_search_button_search (search_text : string) : Action :=
  gtk_editable_set_text notify_text search_text.

(** *** The button at work *)

(** What can happen to a button: its text is edited, the engine finishes
    one of its queries, the revealer reports the end of a transition. *)
Inductive step : World -> World -> Prop :=
| step_edit (s : string) (w w' : World) :
    gcal_search_button_search s w = Some w' -> step w w'
| step_finished (i : nat) (found : option GListModel) (w w' : World) :
    search_finished notify_text i found w = Some w' -> step w w'
| step_revealed (child_revealed : bool) (w w' : World) :
    on_results_revealer_child_reveal_state_changed_cb notify_text child_revealed w = Some w' ->
    step w w'.

Inductive reachable : World -> Prop :=
| reachable_init : reachable gcal_search_button_init
| reachable_step (w w' : World) : reachable w -> step w w' -> reachable w'.

(** The button has no cancellable, nothing has been cancelled and no
    query with the engine has one. *)
Definition no_cancellable (w : World) : Prop :=
  cancellable w = None /\
  cancelled w = [] /\
  Forall (fun q => query_cancellable q = None) (outstanding w).

Definition preserves (a : Action) : Prop :=
  forall w w', no_cancellable w -> a w = Some w' -> no_cancellable w'.

(** The characters [g_ascii_isspace] accepts. *)
Definition is_space (c : ascii) : bool :=
  let n := nat_of_ascii c in
  (Nat.eqb n 32 || Nat.eqb n 9 || Nat.eqb n 10 || Nat.eqb n 11 || Nat.eqb n 12 || Nat.eqb n 13)%bool.

Definition all_whitespace (s : string) : bool :=
  forallb is_space (list_ascii_of_string s).

(** *** Vocabulary of the specification *)

(** "For all input texts that are empty or all-whitespace, the result
    model is cleared to null, no query is submitted and the suggestions
    are hidden." *)
Definition blank_text_clears (w : World) : Prop :=
  all_whitespace (text (entry w)) = true ->
  exists w',
    on_entry_text_changed_cb notify_text w = Some w' /\
    results_listbox w' = None /\
    outstanding w' = outstanding w /\
    reveal_child w' = false.

(** The query the handler builds for [text]. *)
Definition contains_summary (text : string) : string :=
  ("(contains? " ++ dquote ++ "summary" ++ dquote ++ " " ++ dquote ++ text ++ dquote ++ ")")%string.

(** *** Sample worlds *)

(** A new button whose entry holds one space, before the handler runs. *)
Definition one_space_entered : World := store_text " " gcal_search_button_init.

(** The hit of a search for "a" is on display and the entry has just
    been emptied, before the handler runs. *)
Definition results_shown_entry_emptied : World :=
  {| entry := {| text := EmptyString; width_chars := 0; max_width_chars := 0 |};
     popover_visible := true;
     results_listbox := Some [1%nat];
     reveal_child := true;
     stack_visible_child := "button";
     cancellable := None;
     cancelled := [];
     outstanding := [] |}.

(** Callbacks one after the other. *)
Definition run (script : list Action) : Action :=
  fold_right seq (fun w => Some w) script.

End SearchButton.

(** ** The import dialog: calendars and files *)

Module ImportDialogSetup.

Import ImportDialog.

(** [aux == calendar]: two pointers to calendar objects.  A calendar is
    told apart by its backend client. *)
Definition same_calendar (aux calendar : GcalCalendar) : bool :=
  Nat.eqb (gcal_calendar_get_client aux) (gcal_calendar_get_client calendar).

(** The loop of [find_calendar] from index [i] on, over the items of the
    model that are left. *)
Fixpoint find_calendar_from (i : nat) (items : list GcalCalendar)
    (calendar : GcalCalendar) : option nat :=
  match items with
  | [] => None
  | aux :: rest =>
      if same_calendar aux calendar then Some i
      else find_calendar_from (S i) rest calendar
  end.

(** [find_calendar]: [Some position] for [TRUE] with [*out_position]
    written, [None] for [FALSE]. *)
Definition find_calendar (model : list GcalCalendar) (calendar : GcalCalendar)
  : option nat :=
  find_calendar_from 0 model calendar.

(** What the dialog asks of the calendar manager. *)
Record GcalManager : Type := {
  gcal_create_writable_calendars_model : list GcalCalendar;
  gcal_manager_get_default_calendar : option GcalCalendar
}.

(** The calendar combo row: its model and the selected position
    ([GTK_INVALID_LIST_POSITION] is past the end of every model). *)
Record AdwComboRow : Type := {
  combo_model : list GcalCalendar;
  combo_selected : nat
}.

Definition adw_combo_row_get_selected_item (row : AdwComboRow) : option GcalCalendar :=
  nth_error (combo_model row) (combo_selected row).

(** The dialog together with its combo row and the manager of its
    context. *)
Record Dialog : Type := {
  dialog : GcalImportDialog;
  calendar_combo_row : AdwComboRow;
  manager : GcalManager
}.

Definition set_selected_calendar (item : option GcalCalendar) (self : GcalImportDialog)
  : GcalImportDialog :=
  {| calendars_box := calendars_box self;
     placeholder_spinner_visible := placeholder_spinner_visible self;
     rows := rows self;
     selected_calendar := item;
     cancellable := cancellable self;
     n_events := n_events self;
     n_files := n_files self;
     title := title self;
     sensitive := sensitive self;
     closed := closed self |}.

Definition on_calendar_combo_row_selected_item_changed_cb (self : Dialog) : Dialog :=
  {| dialog := set_selected_calendar
                 (adw_combo_row_get_selected_item (calendar_combo_row self)) (dialog self);
     calendar_combo_row := calendar_combo_row self;
     manager := manager self |}.

(** [adw_combo_row_set_selected]: selecting the position that is selected
    does nothing; otherwise the position is stored and the handler of
    [notify::selected-item] runs. *)
Definition adw_combo_row_set_selected (position : nat) (self : Dialog) : Dialog :=
  if Nat.eqb position (combo_selected (calendar_combo_row self)) then self
  else
    on_calendar_combo_row_selected_item_changed_cb
      {| dialog := dialog self;
         calendar_combo_row := {| combo_model := combo_model (calendar_combo_row self);
                                  combo_selected := position |};
         manager := manager self |}.

Definition update_default_calendar (self : Dialog) : Dialog :=
  let calendars := gcal_create_writable_calendars_model (manager self) in
  match gcal_manager_get_default_calendar (manager self) with
  | None => self
  | Some default_calendar =>
      match find_calendar calendars default_calendar with
      | Some position => adw_combo_row_set_selected position self
      | None => self
      end
  end.

(** The import button of the dialog with its combo row. *)
Definition clicked (self : Dialog) : option (Dialog * list GTask) :=
  match on_import_button_clicked_cb (dialog self) with
  | None => None
  | Some (d, tasks) =>
      Some ({| dialog := d;
               calendar_combo_row := calendar_combo_row self;
               manager := manager self |}, tasks)
  end.

(** The [for] loop of [setup_files] with [count] iterations to go:
    [files[i]] is read at each one, past the end of the array ([None]) when
    [n_files] promised more files than there are. *)
Fixpoint setup_files_loop (count i : nat) (files : list GFile) (multiple_files : bool)
    (self : GcalImportDialog) : option GcalImportDialog :=
  match count with
  | O => Some self
  | S count' =>
      match nth_error files i with
      | None => None
      | Some file =>
          setup_files_loop count' (S i) files multiple_files
            (add_file self file multiple_files)
      end
  end.

(** [setup_files]: the count is stored as given; the loop runs while
    [i < n_files], so not at all for a count of zero or less. *)
Definition setup_files (self : GcalImportDialog) (files : list GFile) (n_files : Z)
  : option GcalImportDialog :=
  setup_files_loop (Z.to_nat n_files) 0 files (1 <? n_files) (set_n_files n_files self).

Definition gcal_import_dialog_new_for_files (context : GcalContext)
    (files : list GFile) (n_files : Z) : option GcalImportDialog :=
  setup_files (g_object_new context) files n_files.

(** *** The rows of the combo row's list *)

(** What the list shows of a calendar; [get_source_parent_name_color]
    may leave the parent name [NULL]. *)
Record CalendarItem : Type := {
  gcal_calendar_get_name : string;
  gcal_calendar_get_color : nat;
  gcal_calendar_get_visible : bool;
  source_parent_name : option string
}.

(** The grid built for a list item, with the children stored under the
    keys "color_icon", "title", "subtitle" and "visibility_status_icon". *)
Record Grid : Type := {
  column_spacing : Z;
  color_icon : option (nat * Z);
  grid_title : option string;
  grid_subtitle : option string;
  visibility_status_icon : option string;
  size_request : Z * Z
}.

Definition on_combo_row_signal_factory_setup_cb : Grid :=
  {| column_spacing := 6;
     color_icon := None;
     grid_title := None;
     grid_subtitle := None;
     visibility_status_icon := None;
     size_request := (-1, -1) |}.

(** [in_popover]: whether the grid has a [GtkPopover] ancestor. *)
Definition on_combo_row_signal_factory_bind_cb (calendar : CalendarItem)
    (in_popover : bool) (grid : Grid) : Grid :=
  {| column_spacing := column_spacing grid;
     color_icon := Some (gcal_calendar_get_color calendar, 16);
     grid_title := Some (gcal_calendar_get_name calendar);
     grid_subtitle := source_parent_name calendar;
     visibility_status_icon :=
       if negb (gcal_calendar_get_visible calendar)
       then Some "eye-not-looking-symbolic"
       else visibility_status_icon grid;
     size_request := if in_popover then (250, -1) else (-1, -1) |}.


(** *** The dialog over time *)

(** What can happen to a dialog: a file is added, a row reports its
    file, the calendar selection changes, the import button is clicked,
    the import task completes. *)
Inductive step : GcalImportDialog -> GcalImportDialog -> Prop :=
| step_add_file (self : GcalImportDialog) (file : GFile) (multiple_files : bool) :
    step self (add_file self file multiple_files)
| step_file_loaded (self : GcalImportDialog) (id : nat)
    (parsed_components : option (list ICalComponent))
    (parsed_timezones : option (list ICalTimezone)) :
    step self (file_loaded id parsed_components parsed_timezones self)
| step_selected (self : GcalImportDialog) (item : option GcalCalendar) :
    step self (set_selected_calendar item self)
| step_clicked (self self' : GcalImportDialog) (tasks : list GTask) :
    on_import_button_clicked_cb self = Some (self', tasks) -> step self self'
| step_created (self : GcalImportDialog) (result : TaskResult) :
    step self (fst (on_events_created_cb result self)).

Inductive steps : GcalImportDialog -> GcalImportDialog -> Prop :=
| steps_none (self : GcalImportDialog) : steps self self
| steps_more (self mid self' : GcalImportDialog) :
    steps self mid -> step mid self' -> steps self self'.

(** The file-loaded callbacks of a list of rows, in the order of the
    list. *)
Definition loaded_in_turn (reports : list (nat * option (list ICalComponent)))
    (self : GcalImportDialog) : GcalImportDialog :=
  fold_left (fun d report => on_import_row_file_loaded_cb (fst report) (snd report) d)
    reports self.

(** What is kept from one state of the dialog to a later one. *)
Definition kept (self self' : GcalImportDialog) : Prop :=
  (sensitive self = false -> sensitive self' = false) /\
  (closed self = true -> closed self' = true) /\
  (placeholder_spinner_visible self = false -> placeholder_spinner_visible self' = false) /\
  (List.length (rows self) <= List.length (rows self'))%nat /\
  (forall r, In r (rows self) -> row_visible r = true ->
             exists r', In r' (rows self') /\ row_id r' = row_id r /\
                        row_file r' = row_file r /\ row_visible r' = true).

(** *** Several rows, several bindings *)

(** The rows [add_file] makes for a list of files, numbered from
    [first], and their groups. *)
Definition new_rows (first : nat) (l : list GFile) : list GcalImportFileRow :=
  map (fun p => gcal_import_file_row_new (fst p) (snd p))
      (combine (seq first (List.length l)) l).

Definition new_groups (m : bool) (first : nat) (l : list GFile) : list AdwPreferencesGroup :=
  map (fun p => {| group_title := if m then Some (g_file_get_basename (snd p)) else None;
                   group_row := fst p |})
      (combine (seq first (List.length l)) l).

(** The events that a list of file-loaded callbacks reports in all. *)
Definition total_events (reports : list (nat * option (list ICalComponent))) : Z :=
  fold_right Z.add 0 (map (fun report => events_len (snd report)) reports).

(** A binding to a calendar that is not shown in the views. *)
Definition hidden (binding : CalendarItem * bool) : bool :=
  negb (gcal_calendar_get_visible (fst binding)).

(** A list item bound to one calendar after the other, as the list
    recycles it. *)
Definition bound_in_turn (bindings : list (CalendarItem * bool)) (grid : Grid) : Grid :=
  fold_left (fun g binding => on_combo_row_signal_factory_bind_cb (fst binding) (snd binding) g)
    bindings grid.

(** *** Sample states *)

Definition work_calendar : GcalCalendar := {| gcal_calendar_get_client := 7%nat |}.
Definition home_calendar : GcalCalendar := {| gcal_calendar_get_client := 8%nat |}.

(** Two writable calendars, the second one the default; the combo row
    shows the first. *)
Definition home_is_default : Dialog :=
  {| dialog := set_selected_calendar (Some work_calendar) both_rows_loaded;
     calendar_combo_row := {| combo_model := [work_calendar; home_calendar];
                              combo_selected := 0 |};
     manager := {| gcal_create_writable_calendars_model := [work_calendar; home_calendar];
                   gcal_manager_get_default_calendar := Some home_calendar |} |}.

End ImportDialogSetup.

(** ** The search button: the callbacks of the entry and of the list *)

Module SearchButtonWidget.

Import SearchButton.

(** The button with the fields that the callbacks below use besides
    those of [World]: the width remembered in [self->max_width_chars] and
    the hits handed to [gcal_search_hit_activate], the latest first. *)
Record GcalSearchButton : Type := {
  world : World;
  self_max_width_chars : Z;
  activated : list GcalSearchHit
}.

(** A callback that acts on the widgets alone. *)
Definition in_world (a : Action) (self : GcalSearchButton) : option GcalSearchButton :=
  match a (world self) with
  | Some w => Some {| world := w;
                      self_max_width_chars := self_max_width_chars self;
                      activated := activated self |}
  | None => None
  end.

(** [on_button_clicked_cb]; [x ?: 20] is [x] unless [x] is zero. *)
Definition on_button_clicked_cb (self : GcalSearchButton) : GcalSearchButton :=
  let max_width_chars := max_width_chars (entry (world self)) in
  let remembered :=
    if max_width_chars =? 0 then self_max_width_chars self else max_width_chars in
  {| world :=
       gtk_stack_set_visible_child_name "entry"
         (gtk_editable_set_max_width_chars (if remembered =? 0 then 20 else remembered)
            (gtk_editable_set_width_chars 1 (world self)));
     self_max_width_chars := remembered;
     activated := activated self |}.

Definition on_focus_controller_leave_cb : Action :=
  lift (gtk_editable_set_width_chars 0) ;;
  lift (gtk_editable_set_max_width_chars 0) ;;
  lift (gtk_stack_set_visible_child_name "button") ;;
  hide_suggestions notify_text ;;
  gtk_editable_set_text notify_text EmptyString.

Inductive GtkEntryIconPosition : Type :=
| GTK_ENTRY_ICON_PRIMARY
| GTK_ENTRY_ICON_SECONDARY.

Definition on_entry_icon_pressed_cb (position : GtkEntryIconPosition) : Action :=
  match position with
  | GTK_ENTRY_ICON_PRIMARY => lift (gtk_stack_set_visible_child_name "button")
  | GTK_ENTRY_ICON_SECONDARY => fun w => Some w
  end.

(** A row of the list is activated: its hit is handed to
    [gcal_search_hit_activate], then the suggestions are hidden. *)
Definition on_results_listbox_row_activated_cb (search_hit : GcalSearchHit)
    (self : GcalSearchButton) : option GcalSearchButton :=
  in_world (hide_suggestions notify_text)
    {| world := world self;
       self_max_width_chars := self_max_width_chars self;
       activated := search_hit :: activated self |}.

(** A button as built from its template, with nothing remembered. *)
Definition new_button (template_max_width_chars : Z) : GcalSearchButton :=
  {| world := gtk_editable_set_max_width_chars template_max_width_chars
                gcal_search_button_init;
     self_max_width_chars := 0;
     activated := [] |}.

End SearchButtonWidget.


(** ** The calendar button ([gcal-calendar-button.c]) *)

Module CalendarButton.

Record GcalCalendar : Type := {
  gcal_calendar_get_name : string;
  gcal_calendar_get_color : nat;
  gcal_calendar_get_visible : bool
}.

Definition gcal_calendar_set_visible (visible : bool) (calendar : GcalCalendar)
  : GcalCalendar :=
  {| gcal_calendar_get_name := gcal_calendar_get_name calendar;
     gcal_calendar_get_color := gcal_calendar_get_color calendar;
     gcal_calendar_get_visible := visible |}.

(** A row of the list: the calendar stored under "calendar", named by
    its position among the calendar objects, the label and the colour of
    its icon, and the check button stored under "check". *)
Record GtkListBoxRow : Type := {
  row_calendar : nat;
  row_label : string;
  row_icon : nat * Z;
  check_active : bool
}.

Definition with_active (setting : bool) (row : GtkListBoxRow) : GtkListBoxRow :=
  {| row_calendar := row_calendar row;
     row_label := row_label row;
     row_icon := row_icon row;
     check_active := setting |}.

(** The button: the calendar objects of the manager and the rows of
    [calendar_listbox]. *)
Record GcalCalendarButton : Type := {
  calendars : list GcalCalendar;
  calendar_listbox : list GtkListBoxRow
}.

(** [create_row_func] for the calendar at [position]; the binding is
    made with [G_BINDING_SYNC_CREATE], so the check button starts as the
    calendar's visibility. *)
Definition create_row_func (position : nat) (calendar : GcalCalendar) : GtkListBoxRow :=
  {| row_calendar := position;
     row_label := gcal_calendar_get_name calendar;
     row_icon := (gcal_calendar_get_color calendar, 16);
     check_active := gcal_calendar_get_visible calendar |}.

(** [gtk_list_box_bind_model]: one row for each item of the model, in
    the order of the model. *)
Fixpoint bind_rows (first : nat) (model : list GcalCalendar) : list GtkListBoxRow :=
  match model with
  | [] => []
  | calendar :: rest => create_row_func first calendar :: bind_rows (S first) rest
  end.

(** Setting the context binds the list to the manager's calendars. *)
Definition gcal_calendar_button_set_context (model : list GcalCalendar)
  : GcalCalendarButton :=
  {| calendars := model; calendar_listbox := bind_rows 0 model |}.

(** [g_object_set (calendar, "visible", ...)] on the calendar at
    [position]. *)
Fixpoint set_visible_at (position : nat) (visible : bool) (objects : list GcalCalendar)
  : list GcalCalendar :=
  match objects, position with
  | [], _ => []
  | calendar :: rest, O => gcal_calendar_set_visible visible calendar :: rest
  | calendar :: rest, S position' => calendar :: set_visible_at position' visible rest
  end.

Fixpoint set_active_at (j : nat) (setting : bool) (rows : list GtkListBoxRow)
  : list GtkListBoxRow :=
  match rows, j with
  | [], _ => []
  | row :: rest, O => with_active setting row :: rest
  | row :: rest, S j' => row :: set_active_at j' setting rest
  end.

(** The binding from a calendar to the check buttons bound to it. *)
Definition sync_check (position : nat) (setting : bool) (row : GtkListBoxRow)
  : GtkListBoxRow :=
  if Nat.eqb (row_calendar row) position then with_active setting row else row.

(** [gtk_check_button_set_active] on the check button of row [j], with
    the two-way binding of "active" and "visible": a button that has the
    setting already is left alone; otherwise the button changes and its
    [notify::active] writes the calendar's property, and a calendar whose
    visibility changes writes, through its [notify::visible], every check
    button bound to it. *)
Definition gtk_check_button_set_active (j : nat) (setting : bool)
    (self : GcalCalendarButton) : GcalCalendarButton :=
  match nth_error (calendar_listbox self) j with
  | None => self
  | Some row =>
      if Bool.eqb (check_active row) setting then self
      else
        let rows := set_active_at j setting (calendar_listbox self) in
        match nth_error (calendars self) (row_calendar row) with
        | None => {| calendars := calendars self; calendar_listbox := rows |}
        | Some calendar =>
            if Bool.eqb (gcal_calendar_get_visible calendar) setting
            then {| calendars := calendars self; calendar_listbox := rows |}
            else {| calendars := set_visible_at (row_calendar row) setting (calendars self);
                    calendar_listbox := map (sync_check (row_calendar row) setting) rows |}
        end
  end.

(** Activating row [j] of the list. *)
Definition on_listbox_row_activated_cb (j : nat) (self : GcalCalendarButton)
  : GcalCalendarButton :=
  match nth_error (calendar_listbox self) j with
  | None => self
  | Some row => gtk_check_button_set_active j (negb (check_active row)) self
  end.

(** The calendars with the visibility of the one at [position] toggled. *)
Definition toggled (position : nat) (model : list GcalCalendar) : list GcalCalendar :=
  match nth_error model position with
  | None => model
  | Some calendar =>
      set_visible_at position (negb (gcal_calendar_get_visible calendar)) model
  end.

Definition sample_calendars : list GcalCalendar :=
  [ {| gcal_calendar_get_name := "Work"; gcal_calendar_get_color := 1%nat;
       gcal_calendar_get_visible := true |};
    {| gcal_calendar_get_name := "Home"; gcal_calendar_get_color := 2%nat;
       gcal_calendar_get_visible := false |} ].

End CalendarButton.


(** * Properties *)

(** ** String formatting *)

Lemma append_empty_r (s : string) : (s ++ EmptyString)%string = s.
Proof. induction s as [|c s IH]; simpl; [reflexivity | now rewrite IH]. Qed.

Example string_of_gint_5 : string_of_gint 5 = "5".
Proof. reflexivity. Qed.

Example string_of_gint_neg : string_of_gint (-12) = "-12".
Proof. reflexivity. Qed.

Example string_of_gint_0 : string_of_gint 0 = "0".
Proof. reflexivity. Qed.

Example printf_d_events : printf_d "Import %d events" 40 = "Import 40 events".
Proof. reflexivity. Qed.

Lemma wrap_gint_small (z : Z) : - 2147483648 <= z <= G_MAXINT -> wrap_gint z = z.
Proof.
  unfold wrap_gint, G_MAXINT. intros H.
  rewrite Z.mod_small by lia. lia.
Qed.

(** ** The import dialog *)

Module ImportDialogFacts.

Import ImportDialog.

(** *** Gathering the batch *)

Lemma prepend_all_rev {A : Type} (array slist : list A) :
  prepend_all array slist = rev array ++ slist.
Proof.
  unfold prepend_all. revert slist.
  induction array as [|x array IH]; intros slist; simpl.
  - reflexivity.
  - rewrite IH, <- app_assoc. reflexivity.
Qed.

(** The row loop leaves, in reverse, what each row contributes. *)
Lemma collect_rows_rev (l : list GcalImportFileRow) :
  forall slist zones,
    collect_rows l slist zones =
    (rev (flat_map row_components l) ++ slist,
     rev (flat_map contributed_timezones l) ++ zones).
Proof.
  induction l as [|row next IH]; intros slist zones; simpl.
  - reflexivity.
  - unfold row_components, contributed_timezones, row_timezones.
    destruct (gcal_import_file_row_get_ical_components row) as [comps|]; simpl.
    + destruct (gcal_import_file_row_get_timezones row) as [tzs|]; simpl;
        rewrite IH, ?prepend_all_rev, ?rev_app_distr, ?app_nil_r, <- ?app_assoc;
        reflexivity.
    + apply IH.
Qed.

Lemma collect_rows_components (self : GcalImportDialog) :
  rev (fst (collect_rows (rows self) [] [])) = batch_components self.
Proof.
  rewrite collect_rows_rev. simpl. rewrite app_nil_r, rev_involutive. reflexivity.
Qed.

Lemma collect_rows_zones (self : GcalImportDialog) :
  rev (snd (collect_rows (rows self) [] [])) = flat_map contributed_timezones (rows self).
Proof.
  rewrite collect_rows_rev. simpl. rewrite app_nil_r, rev_involutive. reflexivity.
Qed.

(** When the rows without a component array have no timezones, skipping
    them loses none. *)
Lemma contributed_all (l : list GcalImportFileRow) :
  (forall r, In r l -> gcal_import_file_row_get_ical_components r = None ->
             row_timezones r = []) ->
  flat_map contributed_timezones l = flat_map row_timezones l.
Proof.
  induction l as [|row next IH]; intros Hall; simpl.
  - reflexivity.
  - rewrite IH by (intros r Hr; apply Hall; now right).
    f_equal. unfold contributed_timezones.
    destruct (gcal_import_file_row_get_ical_components row) eqn:Hrow;
      [reflexivity | symmetry; apply (Hall row); [now left | assumption]].
Qed.

(** What the button does, case by case. *)
Lemma clicked_without_calendar (self : GcalImportDialog) :
  selected_calendar self = None -> on_import_button_clicked_cb self = None.
Proof. unfold on_import_button_clicked_cb. now intros ->. Qed.

Lemma clicked_empty (self : GcalImportDialog) (calendar : GcalCalendar) :
  selected_calendar self = Some calendar ->
  batch_components self = [] ->
  on_import_button_clicked_cb self = Some (self, []).
Proof.
  intros Hsel Hempty. unfold on_import_button_clicked_cb. rewrite Hsel.
  pose proof (collect_rows_components self) as Hc.
  destruct (collect_rows (rows self) [] []) as [slist zones]. simpl in Hc.
  rewrite Hempty in Hc.
  destruct slist as [|c slist]; [reflexivity|].
  apply (f_equal (@List.length _)) in Hc. rewrite length_rev in Hc. discriminate.
Qed.

Lemma clicked_nonempty (self : GcalImportDialog) (calendar : GcalCalendar) :
  selected_calendar self = Some calendar ->
  batch_components self <> [] ->
  on_import_button_clicked_cb self =
  Some (start_import g_cancellable_new self,
        [ {| task_cancellable := Some g_cancellable_new;
             task_data := {| client := gcal_calendar_get_client calendar;
                             components := batch_components self;
                             zones := flat_map contributed_timezones (rows self) |} |} ]).
Proof.
  intros Hsel Hne. unfold on_import_button_clicked_cb. rewrite Hsel.
  pose proof (collect_rows_components self) as Hc.
  pose proof (collect_rows_zones self) as Hz.
  destruct (collect_rows (rows self) [] []) as [slist zones]. simpl in Hc, Hz.
  destruct slist as [|c slist].
  - simpl in Hc. congruence.
  - rewrite Hc, Hz. reflexivity.
Qed.

(** *** The batch handed to the background task *)

(** C6: in a dialog whose rows hold the outcome of parsing their files
    (a row that has no component array has no timezones either), when the
    import button starts a task, both collections of its data are the
    lists built by prepending during the traversal of the rows, reversed
    once, and they equal the concatenation, row by row in the traversed
    row order, of each row's components, respectively timezones, in their
    own order. *)
Theorem batch_in_row_order (self self' : GcalImportDialog) (task : GTask) :
  (forall r, In r (rows self) ->
             gcal_import_file_row_get_ical_components r = None ->
             row_timezones r = []) ->
  on_import_button_clicked_cb self = Some (self', [task]) ->
  components (task_data task) = rev (fst (collect_rows (rows self) [] [])) /\
  zones (task_data task) = rev (snd (collect_rows (rows self) [] [])) /\
  components (task_data task) = flat_map row_components (rows self) /\
  zones (task_data task) = flat_map row_timezones (rows self).
Proof.
  intros Hrows Hclick.
  rewrite collect_rows_components, collect_rows_zones.
  rewrite <- (contributed_all (rows self) Hrows).
  destruct (selected_calendar self) as [calendar|] eqn:Hsel;
    [| rewrite (clicked_without_calendar self Hsel) in Hclick; discriminate].
  destruct (batch_components self) as [|c cs] eqn:Hbatch.
  - rewrite (clicked_empty self calendar Hsel Hbatch) in Hclick. discriminate.
  - rewrite (clicked_nonempty self calendar Hsel) in Hclick by congruence.
    injection Hclick as _ <-. simpl.
    split; [assumption|]. split; [reflexivity|]. split; reflexivity.
Qed.

Lemma batch_in_row_order_witness :
  components
    (task_data {| task_cancellable := Some g_cancellable_new;
                  task_data := {| client := 7%nat; components := [4; 5]%nat;
                                  zones := [20%nat] |} |}) =
    flat_map row_components (rows second_row_loaded) /\
  zones
    (task_data {| task_cancellable := Some g_cancellable_new;
                  task_data := {| client := 7%nat; components := [4; 5]%nat;
                                  zones := [20%nat] |} |}) =
    flat_map row_timezones (rows second_row_loaded).
Proof.
  destruct (batch_in_row_order second_row_loaded
              (start_import g_cancellable_new second_row_loaded)
              {| task_cancellable := Some g_cancellable_new;
                 task_data := {| client := 7%nat; components := [4; 5]%nat;
                                 zones := [20%nat] |} |})
    as (_ & _ & Hcomponents & Hzones).
  - intros r [<- | [<- | []]] Hnone; [discriminate | reflexivity].
  - reflexivity.
  - split; assumption.
Defined.

(** *** Clicking with nothing to import *)

(** C3: when no row has a parsed component, the import button changes
    nothing: whenever the handler returns, the dialog is the one it was
    (still sensitive, still open, no cancellable allocated) and no task
    has been started; and with a calendar selected, as the handler
    asserts, it does return. *)
Theorem click_on_empty_batch_is_noop (self : GcalImportDialog) :
  batch_components self = [] ->
  (forall self' tasks,
      on_import_button_clicked_cb self = Some (self', tasks) ->
      tasks = [] /\ self' = self /\
      sensitive self' = sensitive self /\
      cancellable self' = cancellable self /\
      closed self' = closed self) /\
  (forall calendar,
      selected_calendar self = Some calendar ->
      on_import_button_clicked_cb self = Some (self, [])).
Proof.
  intros Hempty. split.
  - intros self' tasks Hclick.
    destruct (selected_calendar self) as [calendar|] eqn:Hsel.
    + rewrite (clicked_empty self calendar Hsel Hempty) in Hclick.
      injection Hclick as <- <-. repeat split.
    + rewrite (clicked_without_calendar self Hsel) in Hclick. discriminate.
  - intros calendar Hsel. exact (clicked_empty self calendar Hsel Hempty).
Qed.

Lemma click_on_empty_batch_is_noop_witness :
  on_import_button_clicked_cb two_files_added = Some (two_files_added, []).
Proof.
  apply (click_on_empty_batch_is_noop two_files_added) with
    (calendar := {| gcal_calendar_get_client := 7%nat |}); reflexivity.
Defined.

(** *** Completion of the import *)


Lemma printf_failed_timezone (message : string) :
  printf_s "Import: Failed to add timezone: %s" message =
  ("Import: Failed to add timezone: " ++ message)%string.
Proof. simpl. now rewrite append_empty_r. Qed.

(** C4: however the background task ends, the completion callback closes
    the dialog; an error adds one logged warning and nothing else, so
    the dialog after a failure is the dialog after a success. *)
Theorem dialog_closes_on_any_result (result : TaskResult) (self : GcalImportDialog) :
  closed (fst (on_events_created_cb result self)) = true /\
  fst (on_events_created_cb result self) =
    fst (on_events_created_cb (TaskBoolean true) self) /\
  snd (on_events_created_cb result self) =
    match result with
    | TaskError message => [Warning ("Error creating events: " ++ message)%string]
    | TaskBoolean _ => []
    end.
Proof.
  destruct result as [message|b]; simpl; repeat split.
  now rewrite append_empty_r.
Qed.

(** *** The background task *)

Lemma timezone_calls_app (t1 t2 : list Event) :
  timezone_calls (t1 ++ t2) = timezone_calls t1 ++ timezone_calls t2.
Proof. apply flat_map_app. Qed.

Lemma create_calls_app (t1 t2 : list Event) :
  create_calls (t1 ++ t2) = create_calls t1 ++ create_calls t2.
Proof. apply flat_map_app. Qed.

Lemma warnings_app (t1 t2 : list Event) :
  warnings (t1 ++ t2) = warnings t1 ++ warnings t2.
Proof. apply flat_map_app. Qed.

Section TimezoneLoop.

Variable env : Backend.
Variable c : ECalClient.

(** One iteration that is not cancelled: the call, then its warning if
    it failed, then the rest of the loop. *)
Lemma add_timezones_step (k : nat) (zone : ICalTimezone) (next : list ICalTimezone) :
  g_cancellable_is_cancelled env k = false ->
  timezone_calls (add_timezones env c k (zone :: next)) =
    zone :: timezone_calls (add_timezones env c (S k) next) /\
  create_calls (add_timezones env c k (zone :: next)) =
    create_calls (add_timezones env c (S k) next) /\
  warnings (add_timezones env c k (zone :: next)) =
    match e_cal_client_add_timezone_sync env k c zone with
    | Some e => [("Import: Failed to add timezone: " ++ e)%string]
    | None => []
    end ++ warnings (add_timezones env c (S k) next).
Proof.
  intros Hk. cbn [add_timezones]. rewrite Hk.
  change (AddTimezone c zone :: ?t) with ([AddTimezone c zone] ++ t).
  rewrite !timezone_calls_app, !create_calls_app, !warnings_app.
  destruct (e_cal_client_add_timezone_sync env k c zone) as [e|].
  - rewrite printf_failed_timezone. repeat split.
  - repeat split.
Qed.

Lemma add_timezones_no_create (l : list ICalTimezone) :
  forall k, create_calls (add_timezones env c k l) = [].
Proof.
  induction l as [|zone next IH]; intros k; [reflexivity|].
  destruct (g_cancellable_is_cancelled env k) eqn:Hk.
  - cbn [add_timezones]. now rewrite Hk.
  - destruct (add_timezones_step k zone next Hk) as (_ & -> & _). apply IH.
Qed.

(** The zones registered are the first so many of the list. *)
Lemma add_timezones_prefix (l : list ICalTimezone) :
  forall k, exists n, (n <= List.length l)%nat /\
                      timezone_calls (add_timezones env c k l) = firstn n l.
Proof.
  induction l as [|zone next IH]; intros k.
  - exists 0%nat. split; [apply Nat.le_refl | reflexivity].
  - destruct (g_cancellable_is_cancelled env k) eqn:Hk.
    + exists 0%nat. cbn [add_timezones]. rewrite Hk.
      split; [apply Nat.le_0_l | reflexivity].
    + destruct (add_timezones_step k zone next Hk) as (-> & _ & _).
      destruct (IH (S k)) as (n & Hn & ->).
      exists (S n). split; [simpl; lia | reflexivity].
Qed.

(** Without a cancellation every zone is registered, whatever the
    registrations answer. *)
Lemma add_timezones_all (l : list ICalTimezone) :
  forall k,
    (forall j, (k <= j)%nat -> g_cancellable_is_cancelled env j = false) ->
    timezone_calls (add_timezones env c k l) = l.
Proof.
  induction l as [|zone next IH]; intros k Hnever; [reflexivity|].
  destruct (add_timezones_step k zone next (Hnever k (Nat.le_refl k))) as (-> & _ & _).
  rewrite IH; [reflexivity|]. intros j Hj. apply Hnever. lia.
Qed.

(** A registration that was made and failed has its warning in the log. *)
Lemma add_timezones_logged (l : list ICalTimezone) :
  forall k i zone e,
    nth_error (timezone_calls (add_timezones env c k l)) i = Some zone ->
    e_cal_client_add_timezone_sync env (k + i) c zone = Some e ->
    In ("Import: Failed to add timezone: " ++ e)%string
       (warnings (add_timezones env c k l)).
Proof.
  induction l as [|zone0 next IH]; intros k i zone e Hcall Hfail.
  - destruct i; discriminate.
  - destruct (g_cancellable_is_cancelled env k) eqn:Hk.
    + cbn [add_timezones] in Hcall. rewrite Hk in Hcall. destruct i; discriminate.
    + destruct (add_timezones_step k zone0 next Hk) as (Ht & _ & Hw).
      rewrite Ht in Hcall. rewrite Hw. apply in_or_app.
      destruct i as [|i]; simpl in Hcall.
      * injection Hcall as ->. rewrite Nat.add_0_r in Hfail. rewrite Hfail.
        left. now left.
      * right. apply (IH (S k) i zone e Hcall).
        now replace (S k + i)%nat with (k + S i)%nat by lia.
Qed.

End TimezoneLoop.

(** C2: a click on a batch of N > 0 components and M timezones starts
    exactly one task, whose data carry the N components and the M
    timezones; run against any backend, the task makes exactly one
    create-objects call, its last call, with all N components, and
    registers the first so many (at most M) of the timezones; unless it is
    cancelled it registers all M whatever the registrations answer, and
    each registration that fails leaves its warning in the log. *)
Theorem one_create_call_for_the_batch
    (self : GcalImportDialog) (calendar : GcalCalendar) (env : Backend) :
  selected_calendar self = Some calendar ->
  batch_components self <> [] ->
  exists self' task,
    on_import_button_clicked_cb self = Some (self', [task]) /\
    components (task_data task) = batch_components self /\
    let id := task_data task in
    let trace := fst (import_data_thread env id) in
    create_calls trace = [batch_components self] /\
    (exists before, trace = before ++ [CreateObjects (client id) (components id)]) /\
    (exists n, (n <= List.length (zones id))%nat /\
               timezone_calls trace = firstn n (zones id)) /\
    (List.length (timezone_calls trace) <= List.length (zones id))%nat /\
    ((forall k, g_cancellable_is_cancelled env k = false) ->
     timezone_calls trace = zones id) /\
    (forall i zone e,
        nth_error (timezone_calls trace) i = Some zone ->
        e_cal_client_add_timezone_sync env i (client id) zone = Some e ->
        In ("Import: Failed to add timezone: " ++ e)%string (warnings trace)).
Proof.
  intros Hsel Hne.
  eexists. eexists. split; [exact (clicked_nonempty self calendar Hsel Hne)|].
  cbn [task_data components zones client].
  split; [reflexivity|].
  cbv zeta. unfold import_data_thread. cbn [fst components zones client].
  set (zs := flat_map contributed_timezones (rows self)).
  set (cl := gcal_calendar_get_client calendar).
  assert (Htz : timezone_calls
                  (add_timezones env cl 0 zs ++ [CreateObjects cl (batch_components self)]) =
                timezone_calls (add_timezones env cl 0 zs)).
  { rewrite timezone_calls_app. apply app_nil_r. }
  rewrite Htz.
  destruct (add_timezones_prefix env cl zs 0) as (n & Hn & Hprefix).
  split; [| split; [| split; [| split; [| split]]]].
  - rewrite create_calls_app, add_timezones_no_create. reflexivity.
  - eexists. reflexivity.
  - exists n. now split.
  - rewrite Hprefix, length_firstn. lia.
  - intros Hnever. apply add_timezones_all. intros j _. apply Hnever.
  - intros i zone e Hcall Hfail.
    rewrite warnings_app. apply in_or_app. left.
    now apply (add_timezones_logged env cl zs 0 i zone e).
Qed.

Lemma one_create_call_for_the_batch_witness :
  exists self' task,
    on_import_button_clicked_cb both_rows_loaded = Some (self', [task]) /\
    components (task_data task) = [4; 5; 1; 2; 3]%nat /\
    create_calls (fst (import_data_thread failing_timezones (task_data task))) =
      [[4; 5; 1; 2; 3]%nat] /\
    timezone_calls (fst (import_data_thread failing_timezones (task_data task))) =
      [20; 21]%nat.
Proof.
  destruct (one_create_call_for_the_batch both_rows_loaded
              {| gcal_calendar_get_client := 7%nat |} failing_timezones)
    as (self' & task & Hclick & Hcomps & Hcreate & _ & _ & _ & Hall & _).
  - reflexivity.
  - discriminate.
  - exists self', task.
    injection Hclick as <- <-.
    split; [reflexivity|]. split; [reflexivity|]. split; [reflexivity|]. reflexivity.
Defined.

(** *** The placeholder spinner *)

(** C8 (as stated, refuted): after one file has been added and before its
    row has reported anything, no row is visible and yet the spinner is
    hidden already. *)
Lemma spinner_hidden_before_any_row_is_visible :
  existsb row_visible (rows one_file_added) = false /\
  placeholder_spinner_visible one_file_added = false /\
  ~ spinner_shown_until_row_visible one_file_added.
Proof.
  split; [reflexivity|]. split; [reflexivity|].
  unfold spinner_shown_until_row_visible. vm_compute. discriminate.
Qed.

(** C8 (amended): [add_file] itself hides the placeholder spinner, as
    soon as a file is added and while the row it adds is not yet visible;
    the file-loaded callback makes its row visible and leaves the spinner
    as it is. *)
Theorem spinner_hidden_when_file_added
    (self : GcalImportDialog) (file : GFile) (multiple_files : bool) :
  placeholder_spinner_visible (add_file self file multiple_files) = false /\
  (exists row, rows (add_file self file multiple_files) = row :: rows self /\
               row_file row = file /\ row_visible row = false) /\
  (forall (other : GcalImportDialog) id events,
      placeholder_spinner_visible (on_import_row_file_loaded_cb id events other) =
        placeholder_spinner_visible other /\
      (forall r, In r (rows (on_import_row_file_loaded_cb id events other)) ->
                 row_id r = id -> row_visible r = true)).
Proof.
  split; [reflexivity|]. split.
  - eexists. repeat split.
  - intros other id events. split; [reflexivity|].
    intros r Hr Hid. cbn [on_import_row_file_loaded_cb rows] in Hr.
    apply in_map_iff in Hr. destruct Hr as (r0 & <- & _).
    unfold set_row_visible in *.
    destruct (Nat.eqb (row_id r0) id) eqn:Heq; [reflexivity|].
    apply Nat.eqb_neq in Heq. contradiction.
Qed.

(** *** The title *)

Lemma wrap_gint_add_l (a b : Z) : wrap_gint (wrap_gint a + b) = wrap_gint (a + b).
Proof.
  unfold wrap_gint. f_equal.
  replace ((a + 2147483648) mod 4294967296 - 2147483648 + b + 2147483648)
    with ((a + 2147483648) mod 4294967296 + b) by lia.
  rewrite Zplus_mod_idemp_l. f_equal. lia.
Qed.

Lemma loaded_n_events (id : nat) (events : option (list ICalComponent))
    (self : GcalImportDialog) :
  n_events (on_import_row_file_loaded_cb id events self) =
  wrap_gint (n_events self + events_len events).
Proof. destruct events; reflexivity. Qed.

Lemma loaded_title (id : nat) (events : option (list ICalComponent))
    (self : GcalImportDialog) :
  title (on_import_row_file_loaded_cb id events self) =
  let n := n_events (on_import_row_file_loaded_cb id events self) in
  printf_d (g_dngettext "Import %d event" "Import %d events" n) n.
Proof. destruct events; reflexivity. Qed.

(** The running count does not depend on the order of two callbacks. *)
Lemma loaded_twice_n_events (r1 r2 : nat) (e1 e2 : option (list ICalComponent))
    (self : GcalImportDialog) :
  n_events (on_import_row_file_loaded_cb r2 e2 (on_import_row_file_loaded_cb r1 e1 self)) =
  wrap_gint (n_events self + events_len e1 + events_len e2).
Proof. now rewrite !loaded_n_events, wrap_gint_add_l. Qed.

(** C9: whatever two files the dialog was made for, once the file-loaded
    callbacks of their rows have fired with 3 and with 2 events, in either
    order, the title is "Import 5 events". *)
Theorem title_after_three_and_two_events
    (context : GcalContext) (f1 f2 : GFile) (r1 r2 : nat)
    (e1 e2 : list ICalComponent) :
  List.length e1 = 3%nat ->
  List.length e2 = 2%nat ->
  exists self,
    gcal_import_dialog_new_for_file_list context [f1; f2] = Some self /\
    title (on_import_row_file_loaded_cb r2 (Some e2)
             (on_import_row_file_loaded_cb r1 (Some e1) self)) = "Import 5 events" /\
    title (on_import_row_file_loaded_cb r1 (Some e1)
             (on_import_row_file_loaded_cb r2 (Some e2) self)) = "Import 5 events".
Proof.
  intros H1 H2. eexists. split; [reflexivity|].
  rewrite !loaded_title. cbv zeta. rewrite !loaded_twice_n_events.
  cbn [events_len]. rewrite H1, H2. split; reflexivity.
Qed.

Lemma title_after_three_and_two_events_witness :
  exists self,
    gcal_import_dialog_new_for_file_list sample_context
      [sample_file "a.ics"; sample_file "b.ics"] = Some self /\
    title (on_import_row_file_loaded_cb 1 (Some [4; 5]%nat)
             (on_import_row_file_loaded_cb 0 (Some [1; 2; 3]%nat) self)) = "Import 5 events" /\
    title (on_import_row_file_loaded_cb 0 (Some [1; 2; 3]%nat)
             (on_import_row_file_loaded_cb 1 (Some [4; 5]%nat) self)) = "Import 5 events".
Proof.
  apply (title_after_three_and_two_events sample_context
           (sample_file "a.ics") (sample_file "b.ics") 0 1 [1; 2; 3]%nat [4; 5]%nat);
    reflexivity.
Defined.

(** *** Setting up the files *)

Lemma add_file_rows (self : GcalImportDialog) (file : GFile) (m : bool) :
  map row_file (rows (add_file self file m)) = file :: map row_file (rows self).
Proof. reflexivity. Qed.

Lemma setup_files_list_loop_spec (has_multiple : bool) (l : list GFile) :
  forall n self,
    0 <= n -> n + Z.of_nat (List.length l) <= G_MAXINT ->
    fst (setup_files_list_loop has_multiple l n self) = n + Z.of_nat (List.length l) /\
    map row_file (rows (snd (setup_files_list_loop has_multiple l n self))) =
      rev l ++ map row_file (rows self) /\
    n_events (snd (setup_files_list_loop has_multiple l n self)) = n_events self.
Proof.
  induction l as [|file next IH]; intros n self Hn Hmax.
  - simpl. split; [lia|]. split; reflexivity.
  - cbn [setup_files_list_loop].
    change (List.length (file :: next)) with (S (List.length next)) in *.
    rewrite Nat2Z.inj_succ in *.
    rewrite wrap_gint_small by (unfold G_MAXINT in *; lia).
    destruct (IH (n + 1) (add_file self file has_multiple)) as (H1 & H2 & H3);
      [lia | lia |].
    rewrite H1, H2, H3, add_file_rows. split; [lia|]. split; [|reflexivity].
    simpl. now rewrite <- app_assoc.
Qed.

(** C10: [setup_files_list] reads the first node of its list before it
    tests anything, so the empty list is outside what it is defined on,
    and so is [gcal_import_dialog_new_for_file_list] there; on a list of N
    files, N > 0 (and N a [gint]), it leaves N in [n_files] and has added
    one row per file, the last file's row first. *)
Theorem file_list_must_not_be_empty
    (context : GcalContext) (self : GcalImportDialog) (list : list GFile) :
  Z.of_nat (List.length list) <= G_MAXINT ->
  match list with
  | [] =>
      setup_files_list self list = None /\
      gcal_import_dialog_new_for_file_list context list = None
  | _ :: _ =>
      exists self',
        setup_files_list self list = Some self' /\
        n_files self' = Z.of_nat (List.length list) /\
        List.length (rows self') = (List.length (rows self) + List.length list)%nat /\
        map row_file (rows self') = rev list ++ map row_file (rows self)
  end.
Proof.
  intros Hmax. destruct list as [|file next]; [split; reflexivity|].
  unfold setup_files_list.
  set (has_multiple := match next with [] => false | _ :: _ => true end).
  destruct (setup_files_list_loop_spec has_multiple (file :: next) 0 self
              (Z.le_refl 0) Hmax) as (Hn & Hrows & _).
  destruct (setup_files_list_loop has_multiple (file :: next) 0 self)
    as [n_files' self'] eqn:Hloop.
  cbn [fst snd] in Hn, Hrows.
  eexists. split; [reflexivity|].
  cbn [set_n_files n_files rows]. split; [rewrite Hn; lia|].
  split; [| exact Hrows].
  apply (f_equal (@List.length _)) in Hrows.
  rewrite length_app, !length_map, length_rev in Hrows. lia.
Qed.

Lemma file_list_must_not_be_empty_witness :
  exists self',
    setup_files_list (g_object_new sample_context)
      [sample_file "a.ics"; sample_file "b.ics"] = Some self' /\
    n_files self' = 2 /\
    List.length (rows self') = 2%nat /\
    map row_file (rows self') = [sample_file "b.ics"; sample_file "a.ics"].
Proof.
  apply (file_list_must_not_be_empty sample_context (g_object_new sample_context)
           [sample_file "a.ics"; sample_file "b.ics"]).
  vm_compute. discriminate.
Defined.

End ImportDialogFacts.

(** ** The search button *)

Module SearchButtonFacts.

Import SearchButton.

(** *** The text handler *)

(** Cancelling touches nothing of the button or of the engine's list. *)
Lemma cancel_keeps_cancellable (c : option nat) (w : World) :
  cancellable (g_cancellable_cancel c w) = cancellable w.
Proof. destruct c; reflexivity. Qed.

Lemma cancel_keeps_outstanding (c : option nat) (w : World) :
  outstanding (g_cancellable_cancel c w) = outstanding w.
Proof. destruct c; reflexivity. Qed.

Lemma cancel_keeps_entry (c : option nat) (w : World) :
  entry (g_cancellable_cancel c w) = entry w.
Proof. destruct c; reflexivity. Qed.

Lemma cancel_keeps_results (c : option nat) (w : World) :
  results_listbox (g_cancellable_cancel c w) = results_listbox w.
Proof. destruct c; reflexivity. Qed.

(** With an empty entry the handler clears the list and conceals the
    suggestions; the text it then sets is the text the entry has. *)
Lemma text_changed_empty (nested : Action) (w : World) :
  text (entry w) = EmptyString ->
  on_entry_text_changed_cb nested w =
  Some (gtk_revealer_set_reveal_child false
          (gtk_list_box_bind_model None (g_cancellable_cancel (cancellable w) w))).
Proof.
  intros Hempty.
  unfold on_entry_text_changed_cb, gtk_editable_get_text. rewrite Hempty.
  unfold seq, lift, set_model, hide_suggestions, seq, lift, gtk_editable_set_text.
  assert (Htext : forall c w0, text (entry (gtk_revealer_set_reveal_child false
                     (gtk_list_box_bind_model None (g_cancellable_cancel c w0))))
                   = text (entry w0)) by (intros [id|] w0; reflexivity).
  rewrite Htext, Hempty. reflexivity.
Qed.

(** With a non-empty entry the handler hands one query to the engine. *)
Lemma text_changed_nonempty (nested : Action) (w : World) :
  text (entry w) <> EmptyString ->
  on_entry_text_changed_cb nested w =
  Some (gcal_search_engine_search (printf_s sexp_format (text (entry w))) 50
          (cancellable w) (g_cancellable_cancel (cancellable w) w)).
Proof.
  intros Hne.
  unfold on_entry_text_changed_cb, gtk_editable_get_text.
  destruct (text (entry w)) as [|ch rest] eqn:Htext; [contradiction|].
  unfold seq, lift. now rewrite cancel_keeps_cancellable.
Qed.

(** Case analysis on the entry's text, with the handler rewritten to
    what it does in each case. *)
Ltac text_cases w :=
  unfold notify_text;
  destruct (string_dec (text (entry w)) EmptyString) as [Hempty|Hne];
  [ rewrite !(text_changed_empty _ w Hempty)
  | rewrite !(text_changed_nonempty _ w Hne) ].

(** The handler always runs to its end, and starts no nested emission of
    [notify::text]: which handlers are connected makes no difference. *)
Lemma notify_text_total (w : World) : exists w', notify_text w = Some w'.
Proof.
  text_cases w; eexists; reflexivity.
Qed.

Lemma text_changed_any_nested (nested : Action) (w : World) :
  on_entry_text_changed_cb nested w = notify_text w.
Proof.
  text_cases w; reflexivity.
Qed.

Lemma printf_sexp_format (t : string) : printf_s sexp_format t = contains_summary t.
Proof. reflexivity. Qed.

(** The handler never gives the button a cancellable. *)
Lemma text_changed_cancellable (w w' : World) :
  notify_text w = Some w' -> cancellable w' = cancellable w.
Proof.
  text_cases w; intros [= <-]; apply cancel_keeps_cancellable.
Qed.

(** C7: for every non-empty text t of the entry the handler hands the
    search engine exactly one new query, the string
    (contains? "summary" "t") with t copied as it is, with 50 as the cap on
    the results, and leaves the displayed list alone. *)
Theorem query_embeds_text_verbatim (w : World) :
  text (entry w) <> EmptyString ->
  exists w',
    on_entry_text_changed_cb notify_text w = Some w' /\
    outstanding w' =
      outstanding w ++
      [ {| sexp_query :=
             ("(contains? " ++ dquote ++ "summary" ++ dquote ++ " " ++
              dquote ++ text (entry w) ++ dquote ++ ")")%string;
           max_results := 50;
           query_cancellable := cancellable w |} ] /\
    results_listbox w' = results_listbox w.
Proof.
  intros Hne. eexists. split; [apply (text_changed_nonempty _ w Hne)|].
  rewrite printf_sexp_format.
  cbn [gcal_search_engine_search set_outstanding outstanding results_listbox].
  rewrite cancel_keeps_outstanding, cancel_keeps_results. split; reflexivity.
Qed.

Lemma query_embeds_text_verbatim_witness :
  exists w',
    on_entry_text_changed_cb notify_text (store_text "ab" gcal_search_button_init) = Some w' /\
    outstanding w' =
      [ {| sexp_query := ("(contains? " ++ dquote ++ "summary" ++ dquote ++ " " ++
                          dquote ++ "ab" ++ dquote ++ ")")%string;
           max_results := 50;
           query_cancellable := None |} ] /\
    results_listbox w' = None.
Proof.
  apply (query_embeds_text_verbatim (store_text "ab" gcal_search_button_init)).
  discriminate.
Defined.

(** C5 (as stated, refuted): an entry holding one space is all
    whitespace, yet the handler submits a query for it. *)
Lemma whitespace_text_is_searched : ~ blank_text_clears one_space_entered.
Proof.
  intros H. destruct H as (w' & Hrun & _ & Hout & _); [reflexivity|].
  vm_compute in Hrun. injection Hrun as <-.
  vm_compute in Hout. discriminate.
Qed.

(** C5 (amended): for an empty text the handler unbinds the result
    model, submits no query and conceals the suggestions; when the
    revealer then reports its child concealed, the popover is closed. *)
Theorem empty_text_clears_results (w : World) :
  text (entry w) = EmptyString ->
  exists w',
    on_entry_text_changed_cb notify_text w = Some w' /\
    results_listbox w' = None /\
    outstanding w' = outstanding w /\
    reveal_child w' = false /\
    exists w'',
      on_results_revealer_child_reveal_state_changed_cb notify_text false w' = Some w'' /\
      popover_visible w'' = false /\
      results_listbox w'' = None /\
      outstanding w'' = outstanding w.
Proof.
  intros Hempty. eexists. split; [apply (text_changed_empty _ w Hempty)|].
  split; [reflexivity|]. split; [apply cancel_keeps_outstanding|].
  split; [reflexivity|].
  unfold on_results_revealer_child_reveal_state_changed_cb, gtk_popover_popdown.
  cbn [negb andb reveal_child gtk_revealer_set_reveal_child popover_visible
       gtk_list_box_bind_model].
  destruct (popover_visible (g_cancellable_cancel (cancellable w) w)) eqn:Hpop.
  - unfold seq, lift, on_popover_closed_cb, seq, lift, gtk_editable_set_text.
    cbn [text entry gtk_editable_set_max_width_chars gtk_editable_set_width_chars
         gtk_popover_set_visible gtk_revealer_set_reveal_child gtk_list_box_bind_model
         set_entry].
    rewrite cancel_keeps_entry, Hempty. cbn [String.eqb].
    eexists. split; [reflexivity|].
    split; [reflexivity|]. split; [reflexivity|]. apply cancel_keeps_outstanding.
  - eexists. split; [reflexivity|].
    split; [exact Hpop|]. split; [reflexivity|]. apply cancel_keeps_outstanding.
Qed.

Lemma empty_text_clears_results_witness :
  exists w',
    on_entry_text_changed_cb notify_text results_shown_entry_emptied = Some w' /\
    results_listbox w' = None /\
    outstanding w' = [] /\
    reveal_child w' = false /\
    exists w'',
      on_results_revealer_child_reveal_state_changed_cb notify_text false w' = Some w'' /\
      popover_visible w'' = false /\
      results_listbox w'' = None /\
      outstanding w'' = [].
Proof.
  apply (empty_text_clears_results results_shown_entry_emptied). reflexivity.
Defined.

(** *** No cancellable, ever *)

Create HintDb preserve.

Lemma preserves_seq (a b : Action) : preserves a -> preserves b -> preserves (a ;; b).
Proof.
  intros Ha Hb w w' Hw. unfold seq.
  destruct (a w) as [w1|] eqn:Haw; [|discriminate].
  intros Hbw. exact (Hb w1 w' (Ha w w1 Hw Haw) Hbw).
Qed.

Lemma preserves_lift (f : World -> World) :
  (forall w, no_cancellable w -> no_cancellable (f w)) -> preserves (lift f).
Proof. intros Hf w w' Hw [= <-]. now apply Hf. Qed.

Lemma preserves_return : preserves (fun w => Some w).
Proof. intros w w' Hw [= <-]. exact Hw. Qed.

#[local] Hint Resolve preserves_seq preserves_lift preserves_return : preserve.

(** The setters of the widgets leave the three fields alone. *)
Lemma widget_setters_keep (w : World) :
  no_cancellable w ->
  (forall b, no_cancellable (gtk_popover_set_visible b w)) /\
  (forall m, no_cancellable (gtk_list_box_bind_model m w)) /\
  (forall b, no_cancellable (gtk_revealer_set_reveal_child b w)) /\
  (forall n, no_cancellable (gtk_stack_set_visible_child_name n w)) /\
  (forall n, no_cancellable (gtk_editable_set_width_chars n w)) /\
  (forall n, no_cancellable (gtk_editable_set_max_width_chars n w)) /\
  (forall t, no_cancellable (store_text t w)).
Proof. intros Hw. repeat split; intros; apply Hw. Qed.

Lemma preserves_notify_text : preserves notify_text.
Proof.
  intros w w' Hw. pose proof Hw as (Hc & Hcancelled & Hout).
  text_cases w; rewrite Hc; intros [= <-]; [exact Hw|].
  split; [exact Hc|]. split; [exact Hcancelled|].
  cbn [g_cancellable_cancel gcal_search_engine_search set_outstanding outstanding].
  apply Forall_app. split; [exact Hout|]. now constructor.
Qed.

#[local] Hint Resolve preserves_notify_text : preserve.

Lemma preserves_set_text (s : string) : preserves (gtk_editable_set_text notify_text s).
Proof.
  intros w w' Hw. unfold gtk_editable_set_text.
  destruct (String.eqb (text (entry w)) s).
  - intros [= <-]. exact Hw.
  - apply preserves_notify_text. now apply widget_setters_keep.
Qed.

#[local] Hint Resolve preserves_set_text : preserve.

Lemma preserves_show_suggestions : preserves show_suggestions.
Proof.
  unfold show_suggestions.
  apply preserves_seq; apply preserves_lift; intros w Hw; now apply widget_setters_keep.
Qed.

Lemma preserves_hide_suggestions : preserves (hide_suggestions notify_text).
Proof.
  unfold hide_suggestions. apply preserves_seq; auto with preserve.
Qed.

#[local] Hint Resolve preserves_show_suggestions preserves_hide_suggestions : preserve.

Lemma preserves_set_model (model : option GListModel) : preserves (set_model notify_text model).
Proof.
  unfold set_model. apply preserves_seq.
  - apply preserves_lift. intros w Hw. now apply widget_setters_keep.
  - destruct model; auto with preserve.
Qed.

Lemma preserves_popover_popdown : preserves (gtk_popover_popdown notify_text).
Proof.
  intros w w' Hw. unfold gtk_popover_popdown.
  destruct (popover_visible w); [| intros [= <-]; exact Hw].
  revert w w' Hw. unfold on_popover_closed_cb.
  repeat apply preserves_seq; auto with preserve;
    apply preserves_lift; intros w Hw; now apply widget_setters_keep.
Qed.

Lemma Forall_without_nth {A : Type} (P : A -> Prop) (l : list A) :
  forall i, Forall P l -> Forall P (firstn i l ++ skipn (S i) l).
Proof.
  induction l as [|x l IH]; intros i Hl.
  - destruct i; constructor.
  - inversion Hl as [|? ? Hx Hrest]; subst.
    destruct i as [|i]; simpl; [exact Hrest|].
    constructor; [exact Hx | now apply IH].
Qed.

Lemma preserves_step (w w' : World) : no_cancellable w -> step w w' -> no_cancellable w'.
Proof.
  intros Hw Hstep. destruct Hstep as [s w w' Hrun | i found w w' Hrun | b w w' Hrun].
  - exact (preserves_set_text s w w' Hw Hrun).
  - unfold search_finished in Hrun.
    destruct (nth_error (outstanding w) i) as [q|]; [|discriminate].
    unfold on_search_finished_cb in Hrun.
    refine (preserves_set_model _ _ w' _ Hrun).
    destruct Hw as (Hc & Hcancelled & Hout).
    split; [exact Hc|]. split; [exact Hcancelled|].
    cbn [set_outstanding outstanding]. now apply Forall_without_nth.
  - unfold on_results_revealer_child_reveal_state_changed_cb in Hrun.
    destruct (negb b && negb (reveal_child w))%bool.
    + exact (preserves_popover_popdown w w' Hw Hrun).
    + injection Hrun as <-. exact Hw.
Qed.

(** Whatever is done to a new button, it never gets a cancellable and
    none of its queries carries one. *)
Lemma reachable_no_cancellable (w : World) : reachable w -> no_cancellable w.
Proof.
  induction 1 as [|w w' _ IH Hstep].
  - repeat split. constructor.
  - exact (preserves_step w w' IH Hstep).
Qed.

(** *** Completions *)

(** The sample world above is reached from a new button: search for "a",
    let the query finish with hit 1, then empty the entry's buffer. *)
Example results_shown_entry_emptied_reached :
  option_map (store_text EmptyString)
    (run [gcal_search_button_search "a"; search_finished notify_text 0 (Some [1%nat])]
       gcal_search_button_init) = Some results_shown_entry_emptied.
Proof. reflexivity. Qed.

(** A query submitted without a cancellable finishes with what the
    engine found, however many queries were submitted after it, and its
    hits replace the list on display. *)
Lemma search_finished_unguarded (w : World) (i : nat) (q : Query) (model : GListModel) :
  nth_error (outstanding w) i = Some q ->
  query_cancellable q = None ->
  exists w',
    search_finished notify_text i (Some model) w = Some w' /\
    results_listbox w' = Some model /\
    popover_visible w' = true.
Proof.
  intros Hq Hnone. unfold search_finished. rewrite Hq.
  unfold on_search_finished_cb, gcal_search_engine_search_finish.
  rewrite Hnone. cbn [g_cancellable_is_cancelled].
  eexists. split; [reflexivity|]. split; reflexivity.
Qed.

(** So, at any time, the hits of any query still with the engine, the
    oldest included, replace the list on display when it finishes. *)
Lemma any_completion_replaces_results (w : World) (i : nat) (q : Query)
    (model : GListModel) :
  reachable w ->
  nth_error (outstanding w) i = Some q ->
  exists w',
    search_finished notify_text i (Some model) w = Some w' /\
    results_listbox w' = Some model /\
    popover_visible w' = true.
Proof.
  intros Hreach Hq. apply (search_finished_unguarded w i q model Hq).
  destruct (reachable_no_cancellable w Hreach) as (_ & _ & Hout).
  rewrite Forall_forall in Hout. apply Hout. exact (nth_error_In _ _ Hq).
Qed.

(** C1 (what the code does): the button never has a cancellable, so
    typing "ab" after "a" cancels nothing: both queries stay with the
    engine, without a cancellable; when the query for "ab" finishes first
    with hit 2 and the query for "a" after it with hit 1, the list on
    display ends as the older query's hit 1. *)
Theorem stale_completion_replaces_newer_results :
  exists w2 w3 w4,
    run [gcal_search_button_search "a"; gcal_search_button_search "ab"]
      gcal_search_button_init = Some w2 /\
    map sexp_query (outstanding w2) = [contains_summary "a"; contains_summary "ab"] /\
    map query_cancellable (outstanding w2) = [None; None] /\
    cancelled w2 = [] /\
    search_finished notify_text 1 (Some [2%nat]) w2 = Some w3 /\
    results_listbox w3 = Some [2%nat] /\
    search_finished notify_text 0 (Some [1%nat]) w3 = Some w4 /\
    results_listbox w4 = Some [1%nat].
Proof.
  do 3 eexists.
  split; [reflexivity|]. split; [reflexivity|]. split; [reflexivity|].
  split; [reflexivity|]. split; [reflexivity|]. split; [reflexivity|].
  split; reflexivity.
Qed.

End SearchButtonFacts.

(** ** The import dialog: calendars and files *)

Module ImportDialogSetupFacts.

Import ImportDialog ImportDialogSetup.

(** *** Finding a calendar *)

Lemma same_calendar_eq (aux calendar : GcalCalendar) :
  same_calendar aux calendar = true <-> aux = calendar.
Proof.
  destruct aux as [a], calendar as [c]. unfold same_calendar. simpl.
  rewrite Nat.eqb_eq. split; [now intros -> | now intros [= ->]].
Qed.

Lemma find_calendar_from_some (items : list GcalCalendar) (calendar : GcalCalendar) :
  forall i p,
    find_calendar_from i items calendar = Some p <->
    exists k, p = (i + k)%nat /\ nth_error items k = Some calendar /\
              forall j, (j < k)%nat -> nth_error items j <> Some calendar.
Proof.
  induction items as [|aux rest IH]; intros i p; simpl.
  - split; [discriminate|]. intros (k & _ & Hk & _). destruct k; discriminate.
  - destruct (same_calendar aux calendar) eqn:Hsame.
    + apply same_calendar_eq in Hsame. subst aux. split.
      * intros [= <-]. exists 0%nat. split; [lia|]. split; [reflexivity|]. lia.
      * intros (k & -> & Hk & Hfirst). destruct k as [|k]; [f_equal; lia|].
        exfalso. apply (Hfirst 0%nat); [lia | reflexivity].
    + assert (Hne : aux <> calendar).
      { intros Heq. apply same_calendar_eq in Heq. congruence. }
      rewrite IH. split.
      * intros (k & -> & Hk & Hfirst). exists (S k). split; [lia|].
        split; [exact Hk|]. intros [|j] Hj; simpl; [congruence|].
        apply Hfirst. lia.
      * intros (k & -> & Hk & Hfirst). destruct k as [|k]; simpl in Hk; [congruence|].
        exists k. split; [lia|]. split; [exact Hk|].
        intros j Hj. apply (Hfirst (S j)). lia.
Qed.

Lemma find_calendar_from_none (items : list GcalCalendar) (calendar : GcalCalendar) :
  forall i, find_calendar_from i items calendar = None <-> ~ In calendar items.
Proof.
  induction items as [|aux rest IH]; intros i; simpl.
  - split; [intros _ [] | reflexivity].
  - destruct (same_calendar aux calendar) eqn:Hsame.
    + apply same_calendar_eq in Hsame. split; [discriminate|].
      intros Hnot. exfalso. apply Hnot. now left.
    + assert (Hne : aux <> calendar).
      { intros Heq. apply same_calendar_eq in Heq. congruence. }
      rewrite IH. tauto.
Qed.

Lemma find_calendar_some (model : list GcalCalendar) (calendar : GcalCalendar) (p : nat) :
  find_calendar model calendar = Some p <->
  nth_error model p = Some calendar /\
  forall j, (j < p)%nat -> nth_error model j <> Some calendar.
Proof.
  unfold find_calendar. rewrite find_calendar_from_some. split.
  - intros (k & -> & Hk). exact Hk.
  - intros Hp. exists p. split; [reflexivity | exact Hp].
Qed.

Lemma find_calendar_none (model : list GcalCalendar) (calendar : GcalCalendar) :
  find_calendar model calendar = None <-> ~ In calendar model.
Proof. apply find_calendar_from_none. Qed.

(** X1: [find_calendar] answers with the first position at which the
    model holds the calendar, and with [FALSE] exactly when the model does
    not hold it. *)
Theorem find_calendar_first_position (model : list GcalCalendar) (calendar : GcalCalendar) :
  (forall p,
      find_calendar model calendar = Some p <->
      nth_error model p = Some calendar /\
      forall j, (j < p)%nat -> nth_error model j <> Some calendar) /\
  (find_calendar model calendar = None <-> ~ In calendar model).
Proof.
  split.
  - intros p. apply find_calendar_some.
  - apply find_calendar_none.
Qed.

(** *** The default calendar *)

(** Selecting a position keeps the dialog's calendar equal to the combo
    row's selected item, if it was. *)
Lemma set_selected_mirrors (position : nat) (self : Dialog) :
  selected_calendar (dialog self) = adw_combo_row_get_selected_item (calendar_combo_row self) ->
  selected_calendar (dialog (adw_combo_row_set_selected position self)) =
    nth_error (combo_model (calendar_combo_row self)) position /\
  adw_combo_row_get_selected_item (calendar_combo_row (adw_combo_row_set_selected position self)) =
    nth_error (combo_model (calendar_combo_row self)) position.
Proof.
  intros Hmirror. unfold adw_combo_row_set_selected.
  destruct (Nat.eqb position (combo_selected (calendar_combo_row self))) eqn:Hsame.
  - apply Nat.eqb_eq in Hsame. rewrite Hmirror. unfold adw_combo_row_get_selected_item.
    rewrite Hsame. split; reflexivity.
  - split; reflexivity.
Qed.

(** X2: when the combo row shows the writable calendars and the dialog's
    selected calendar is the row's selected item, [update_default_calendar]
    keeps it so; it selects the default calendar if that is writable and
    changes nothing if there is no default calendar or it is read-only. *)
Theorem update_default_selects_writable_default (self : Dialog) :
  combo_model (calendar_combo_row self) = gcal_create_writable_calendars_model (manager self) ->
  selected_calendar (dialog self) = adw_combo_row_get_selected_item (calendar_combo_row self) ->
  selected_calendar (dialog (update_default_calendar self)) =
    adw_combo_row_get_selected_item (calendar_combo_row (update_default_calendar self)) /\
  match gcal_manager_get_default_calendar (manager self) with
  | None => update_default_calendar self = self
  | Some default_calendar =>
      (In default_calendar (gcal_create_writable_calendars_model (manager self)) ->
       selected_calendar (dialog (update_default_calendar self)) = Some default_calendar) /\
      (~ In default_calendar (gcal_create_writable_calendars_model (manager self)) ->
       update_default_calendar self = self)
  end.
Proof.
  intros Hmodel Hmirror. unfold update_default_calendar.
  destruct (gcal_manager_get_default_calendar (manager self)) as [dc|]; [|now split].
  destruct (find_calendar (gcal_create_writable_calendars_model (manager self)) dc)
    as [p|] eqn:Hfind.
  - destruct (set_selected_mirrors p self Hmirror) as (Hsel & Hitem).
    split; [now rewrite Hsel, Hitem|]. split.
    + intros _. rewrite Hsel, Hmodel.
      now apply find_calendar_some in Hfind.
    + intros Hnot. apply find_calendar_none in Hnot. congruence.
  - split; [exact Hmirror|]. split; [|reflexivity].
    intros Hin. apply find_calendar_none in Hfind. contradiction.
Qed.

Lemma update_default_selects_writable_default_witness :
  selected_calendar (dialog (update_default_calendar home_is_default)) = Some home_calendar.
Proof.
  destruct (update_default_selects_writable_default home_is_default eq_refl eq_refl)
    as (_ & Hdefault & _).
  apply Hdefault. right. now left.
Defined.

Lemma update_default_keeps_rows (self : Dialog) :
  rows (dialog (update_default_calendar self)) = rows (dialog self).
Proof.
  unfold update_default_calendar.
  destruct (gcal_manager_get_default_calendar (manager self)) as [dc|]; [|reflexivity].
  destruct (find_calendar _ dc) as [p|]; [|reflexivity].
  unfold adw_combo_row_set_selected.
  destruct (Nat.eqb p (combo_selected (calendar_combo_row self))); reflexivity.
Qed.

(** X3: when the combo row shows the writable calendars, the dialog's
    selected calendar is the row's selected item, the default calendar is
    writable and some row has a component, a click after
    [update_default_calendar] starts one task, and its client is the
    default calendar's client. *)
Theorem import_goes_to_default_calendar (self : Dialog) (default_calendar : GcalCalendar) :
  combo_model (calendar_combo_row self) = gcal_create_writable_calendars_model (manager self) ->
  selected_calendar (dialog self) = adw_combo_row_get_selected_item (calendar_combo_row self) ->
  gcal_manager_get_default_calendar (manager self) = Some default_calendar ->
  In default_calendar (gcal_create_writable_calendars_model (manager self)) ->
  batch_components (dialog self) <> [] ->
  exists self' task,
    clicked (update_default_calendar self) = Some (self', [task]) /\
    client (task_data task) = gcal_calendar_get_client default_calendar /\
    components (task_data task) = batch_components (dialog self).
Proof.
  intros Hmodel Hmirror Hdefault Hin Hbatch.
  assert (Hsel : selected_calendar (dialog (update_default_calendar self)) =
                 Some default_calendar).
  { unfold update_default_calendar. rewrite Hdefault.
    destruct (find_calendar _ default_calendar) as [p|] eqn:Hfind.
    - destruct (set_selected_mirrors p self Hmirror) as (-> & _).
      rewrite Hmodel. now apply find_calendar_some in Hfind.
    - apply find_calendar_none in Hfind. contradiction. }
  assert (Hsame : batch_components (dialog (update_default_calendar self)) =
                  batch_components (dialog self)).
  { unfold batch_components. now rewrite update_default_keeps_rows. }
  unfold clicked.
  rewrite (ImportDialogFacts.clicked_nonempty _ default_calendar Hsel)
    by (rewrite Hsame; exact Hbatch).
  eexists. eexists. split; [reflexivity|]. split; [reflexivity|]. exact Hsame.
Qed.

Lemma import_goes_to_default_calendar_witness :
  exists self' task,
    clicked (update_default_calendar home_is_default) = Some (self', [task]) /\
    client (task_data task) = 8%nat /\
    components (task_data task) = [4; 5; 1; 2; 3]%nat.
Proof.
  apply (import_goes_to_default_calendar home_is_default home_calendar);
    try reflexivity.
  - right. now left.
  - discriminate.
Defined.

(** *** Files given as an array *)

(** The rows and groups that [add_file] adds for a list of files. *)
Lemma list_loop_adds (has_multiple : bool) (l : list GFile) :
  forall n self,
    snd (setup_files_list_loop has_multiple l n self) =
    fold_left (fun d file => add_file d file has_multiple) l self.
Proof.
  induction l as [|file next IH]; intros n self; simpl; [reflexivity | apply IH].
Qed.

Lemma array_loop_adds (multiple_files : bool) (l : list GFile) :
  forall before self,
    setup_files_loop (List.length l) (List.length before) (before ++ l) multiple_files self =
    Some (fold_left (fun d file => add_file d file multiple_files) l self).
Proof.
  induction l as [|file next IH]; intros before self; simpl; [reflexivity|].
  rewrite nth_error_app2 by lia. rewrite Nat.sub_diag. simpl.
  replace (before ++ file :: next) with ((before ++ [file]) ++ next)
    by (now rewrite <- app_assoc).
  replace (S (List.length before)) with (List.length (before ++ [file]))
    by (rewrite length_app; simpl; lia).
  apply IH.
Qed.

Lemma add_files_set_n_files (m : bool) (l : list GFile) (n : Z) :
  forall self,
    fold_left (fun d file => add_file d file m) l (set_n_files n self) =
    set_n_files n (fold_left (fun d file => add_file d file m) l self).
Proof.
  induction l as [|file next IH]; intros self; simpl; [reflexivity|].
  rewrite <- IH. reflexivity.
Qed.

(** X4: for a non-empty list of files (no longer than a [gint] counts)
    [setup_files], given the files with their number, builds the very
    dialog that [setup_files_list] builds. *)
Theorem setup_files_agrees_with_list (self : GcalImportDialog) (files : list GFile) :
  files <> [] ->
  Z.of_nat (List.length files) <= G_MAXINT ->
  setup_files self files (Z.of_nat (List.length files)) = setup_files_list self files.
Proof.
  intros Hne Hmax. destruct files as [|file next]; [contradiction|].
  unfold setup_files, setup_files_list.
  rewrite Nat2Z.id.
  rewrite (array_loop_adds _ (file :: next) [] _).
  destruct (ImportDialogFacts.setup_files_list_loop_spec
              (match next with [] => false | _ :: _ => true end)
              (file :: next) 0 self (Z.le_refl 0) Hmax) as (Hn & _).
  pose proof (list_loop_adds (match next with [] => false | _ :: _ => true end)
                (file :: next) 0 self) as Hadds.
  destruct (setup_files_list_loop _ (file :: next) 0 self) as [n self'].
  cbn [fst snd] in Hn, Hadds. subst n self'.
  rewrite add_files_set_n_files. rewrite Z.add_0_l.
  replace (1 <? Z.of_nat (List.length (file :: next)))
    with (match next with [] => false | _ :: _ => true end); [reflexivity|].
  destruct next as [|file' next']; [reflexivity|].
  symmetry. apply Z.ltb_lt. simpl List.length. lia.
Qed.

Lemma setup_files_agrees_with_list_witness :
  setup_files (g_object_new sample_context) [sample_file "a.ics"; sample_file "b.ics"] 2 =
  setup_files_list (g_object_new sample_context) [sample_file "a.ics"; sample_file "b.ics"].
Proof.
  apply (setup_files_agrees_with_list (g_object_new sample_context)
           [sample_file "a.ics"; sample_file "b.ics"]).
  - discriminate.
  - vm_compute. discriminate.
Defined.

Lemma array_loop_past_end (m : bool) (files : list GFile) :
  forall count i self,
    (i <= List.length files)%nat ->
    (List.length files < i + count)%nat ->
    setup_files_loop count i files m self = None.
Proof.
  induction count as [|count IH]; intros i self Hi Hpast; [lia|].
  simpl. destruct (nth_error files i) as [file|] eqn:Hfile; [|reflexivity].
  assert (i < List.length files)%nat by (apply nth_error_Some; congruence).
  apply IH; lia.
Qed.

(** X5: [setup_files] with a count of zero or less adds no row, leaves
    the spinner as it is and stores the count as given, whatever the array
    holds; with a count above the length of the array it reads past the
    end of the array. *)
Theorem setup_files_count_out_of_range
    (self : GcalImportDialog) (files : list GFile) (n_files : Z) :
  (n_files <= 0 -> setup_files self files n_files = Some (set_n_files n_files self)) /\
  (Z.of_nat (List.length files) < n_files -> setup_files self files n_files = None).
Proof.
  unfold setup_files. split.
  - intros Hn. replace (Z.to_nat n_files) with 0%nat by lia. reflexivity.
  - intros Hn. apply array_loop_past_end; lia.
Qed.

(** *** Rows and groups *)

(** Adding a list of files appends their groups in the order of the
    list and prepends their rows, numbered from the number of rows there
    were. *)
Lemma add_files_layout (m : bool) (l : list GFile) :
  forall self,
    let self' := fold_left (fun d file => add_file d file m) l self in
    rows self' = rev (new_rows (List.length (rows self)) l) ++ rows self /\
    calendars_box self' = calendars_box self ++ new_groups m (List.length (rows self)) l.
Proof.
  induction l as [|file next IH]; intros self; cbv zeta.
  - simpl. now rewrite app_nil_r.
  - cbn [fold_left]. destruct (IH (add_file self file m)) as (Hrows & Hbox).
    rewrite Hrows, Hbox. unfold new_rows, new_groups.
    cbn [add_file rows calendars_box List.length seq combine map rev fst snd].
    rewrite <- !app_assoc. split; reflexivity.
Qed.

Lemma new_rows_files (first : nat) (l : list GFile) :
  map row_file (new_rows first l) = l /\
  map row_id (new_rows first l) = seq first (List.length l) /\
  Forall (fun r => row_visible r = false) (new_rows first l).
Proof.
  unfold new_rows. revert first.
  induction l as [|file next IH]; intros first; simpl.
  - repeat split. constructor.
  - destruct (IH (S first)) as (Hf & Hi & Hv).
    rewrite Hf, Hi. repeat split. constructor; [reflexivity | exact Hv].
Qed.

Lemma new_groups_titles (m : bool) (first : nat) (l : list GFile) :
  map group_title (new_groups m first l) =
    map (fun file => if m then Some (g_file_get_basename file) else None) l /\
  map group_row (new_groups m first l) = seq first (List.length l).
Proof.
  unfold new_groups. revert first.
  induction l as [|file next IH]; intros first; simpl.
  - split; reflexivity.
  - destruct (IH (S first)) as (Ht & Hr). rewrite Ht, Hr. split; reflexivity.
Qed.

(** The dialog [setup_files_list] builds, spelled out. *)
Lemma setup_files_list_layout (self : GcalImportDialog) (file : GFile) (next : list GFile) :
  Z.of_nat (List.length (file :: next)) <= G_MAXINT ->
  exists self',
    setup_files_list self (file :: next) = Some self' /\
    rows self' = rev (new_rows (List.length (rows self)) (file :: next)) ++ rows self /\
    calendars_box self' =
      calendars_box self ++
      new_groups (match next with [] => false | _ :: _ => true end)
        (List.length (rows self)) (file :: next).
Proof.
  intros Hmax. unfold setup_files_list.
  pose proof (list_loop_adds (match next with [] => false | _ :: _ => true end)
                (file :: next) 0 self) as Hadds.
  destruct (setup_files_list_loop _ (file :: next) 0 self) as [n self'].
  cbn [snd] in Hadds. subst self'.
  eexists. split; [reflexivity|]. cbn [set_n_files rows calendars_box].
  apply add_files_layout.
Qed.

(** X6: a dialog made for a list of N files shows one group per file
    in the order of the list, titled with the file's basename exactly when
    there are several files, while its row list holds the rows last file
    first; the k-th group belongs to row number k, which wraps the k-th
    file, and no row is visible yet. *)
Theorem groups_in_file_order_rows_reversed (context : GcalContext) (files : list GFile) :
  files <> [] ->
  Z.of_nat (List.length files) <= G_MAXINT ->
  exists self,
    gcal_import_dialog_new_for_file_list context files = Some self /\
    map group_title (calendars_box self) =
      map (fun file => if (2 <=? List.length files)%nat
                       then Some (g_file_get_basename file) else None) files /\
    map group_row (calendars_box self) = seq 0 (List.length files) /\
    map row_id (rows self) = rev (seq 0 (List.length files)) /\
    map row_file (rows self) = rev files /\
    Forall (fun r => row_visible r = false) (rows self).
Proof.
  intros Hne Hmax. destruct files as [|file next]; [contradiction|].
  unfold gcal_import_dialog_new_for_file_list.
  destruct (setup_files_list_layout (g_object_new context) file next Hmax)
    as (self & Hsetup & Hrows & Hbox).
  exists self. split; [exact Hsetup|].
  cbn [g_object_new rows calendars_box List.length app] in Hrows, Hbox.
  rewrite app_nil_r in Hrows.
  destruct (new_rows_files 0 (file :: next)) as (Hf & Hi & Hv).
  destruct (new_groups_titles (match next with [] => false | _ :: _ => true end)
              0 (file :: next)) as (Ht & Hr).
  rewrite Hrows, Hbox, !map_rev, Hf, Hi, Ht, Hr.
  split; [| split; [reflexivity | split; [reflexivity | split; [reflexivity|]]]].
  - destruct next; reflexivity.
  - apply Forall_rev. exact Hv.
Qed.

Lemma groups_in_file_order_rows_reversed_witness :
  exists self,
    gcal_import_dialog_new_for_file_list sample_context
      [sample_file "a.ics"; sample_file "b.ics"] = Some self /\
    map group_title (calendars_box self) = [Some "a.ics"; Some "b.ics"] /\
    map group_row (calendars_box self) = [0; 1]%nat /\
    map row_id (rows self) = [1; 0]%nat /\
    map row_file (rows self) = [sample_file "b.ics"; sample_file "a.ics"] /\
    Forall (fun r => row_visible r = false) (rows self).
Proof.
  apply (groups_in_file_order_rows_reversed sample_context
           [sample_file "a.ics"; sample_file "b.ics"]).
  - discriminate.
  - vm_compute. discriminate.
Defined.

(** X7: in a dialog made for a list of N files, after the file-loaded
    callback of row k the rows that are visible are exactly the rows
    numbered k: the row of the k-th file for k < N, none otherwise. *)
Theorem file_loaded_shows_its_own_row
    (context : GcalContext) (files : list GFile) (k : nat)
    (events : option (list ICalComponent)) :
  files <> [] ->
  Z.of_nat (List.length files) <= G_MAXINT ->
  exists self,
    gcal_import_dialog_new_for_file_list context files = Some self /\
    map (fun r => (row_id r, row_file r, row_visible r))
        (rows (on_import_row_file_loaded_cb k events self)) =
    map (fun r => (row_id r, row_file r, Nat.eqb (row_id r) k)) (rows self) /\
    map row_id (rows self) = rev (seq 0 (List.length files)).
Proof.
  intros Hne Hmax. destruct files as [|file next]; [contradiction|].
  unfold gcal_import_dialog_new_for_file_list.
  destruct (setup_files_list_layout (g_object_new context) file next Hmax)
    as (self & Hsetup & Hrows & _).
  exists self. split; [exact Hsetup|].
  cbn [g_object_new rows List.length app] in Hrows. rewrite app_nil_r in Hrows.
  destruct (new_rows_files 0 (file :: next)) as (_ & Hi & Hv).
  split; [| now rewrite Hrows, map_rev, Hi].
  cbn [on_import_row_file_loaded_cb rows]. rewrite map_map.
  apply map_ext_in. intros r Hr.
  assert (Hinvisible : row_visible r = false).
  { rewrite Hrows in Hr. apply in_rev in Hr.
    rewrite Forall_forall in Hv. now apply Hv. }
  unfold set_row_visible. destruct (Nat.eqb (row_id r) k); [reflexivity|].
  now rewrite Hinvisible.
Qed.

Lemma file_loaded_shows_its_own_row_witness :
  exists self,
    gcal_import_dialog_new_for_file_list sample_context
      [sample_file "a.ics"; sample_file "b.ics"] = Some self /\
    map (fun r => (row_id r, row_file r, row_visible r))
        (rows (on_import_row_file_loaded_cb 0 (Some [1%nat]) self)) =
    map (fun r => (row_id r, row_file r, Nat.eqb (row_id r) 0)) (rows self) /\
    map row_id (rows self) = [1; 0]%nat.
Proof.
  apply (file_loaded_shows_its_own_row sample_context
           [sample_file "a.ics"; sample_file "b.ics"] 0 (Some [1%nat])).
  - discriminate.
  - vm_compute. discriminate.
Defined.

(** *** What never comes back *)

Lemma clicked_cases (self self' : GcalImportDialog) (tasks : list GTask) :
  on_import_button_clicked_cb self = Some (self', tasks) ->
  self' = self \/ self' = start_import g_cancellable_new self.
Proof.
  unfold on_import_button_clicked_cb.
  destruct (selected_calendar self); [|discriminate].
  destruct (collect_rows (rows self) [] []) as [[|c slist] zones]; intros [= <- _];
    [now left | now right].
Qed.

Lemma kept_refl (self : GcalImportDialog) : kept self self.
Proof.
  repeat split; try tauto; [apply Nat.le_refl|].
  intros r Hr Hv. exists r. repeat split; assumption.
Qed.

Lemma kept_trans (a b c : GcalImportDialog) : kept a b -> kept b c -> kept a c.
Proof.
  intros (Hs & Hc & Hp & Hl & Hr) (Hs' & Hc' & Hp' & Hl' & Hr').
  repeat split; try tauto; [lia|].
  intros r Hin Hv. destruct (Hr r Hin Hv) as (r1 & Hin1 & Hid1 & Hf1 & Hv1).
  destruct (Hr' r1 Hin1 Hv1) as (r2 & Hin2 & Hid2 & Hf2 & Hv2).
  exists r2. repeat split; congruence.
Qed.

Lemma kept_same_rows (self self' : GcalImportDialog) :
  rows self' = rows self ->
  (sensitive self = false -> sensitive self' = false) ->
  (closed self = true -> closed self' = true) ->
  (placeholder_spinner_visible self = false -> placeholder_spinner_visible self' = false) ->
  kept self self'.
Proof.
  intros Hrows Hs Hc Hp. repeat split; try assumption.
  - rewrite Hrows. apply Nat.le_refl.
  - intros r Hr Hv. exists r. rewrite Hrows. repeat split; assumption.
Qed.

Lemma kept_file_loaded (self : GcalImportDialog) (id : nat)
    (parsed_components : option (list ICalComponent))
    (parsed_timezones : option (list ICalTimezone)) :
  kept self (file_loaded id parsed_components parsed_timezones self).
Proof.
  repeat split; try (cbn; tauto).
  - cbn [file_loaded on_import_row_file_loaded_cb rows]. rewrite !length_map.
    apply Nat.le_refl.
  - intros r Hr Hv. cbn [file_loaded on_import_row_file_loaded_cb rows].
    exists (set_row_visible id (store_parsed id parsed_components parsed_timezones r)).
    split; [now apply in_map, in_map|].
    unfold set_row_visible, store_parsed.
    destruct (Nat.eqb (row_id r) id) eqn:Hid; cbn [row_id]; rewrite Hid;
      repeat split; assumption.
Qed.

Lemma kept_step (self self' : GcalImportDialog) : step self self' -> kept self self'.
Proof.
  intros Hstep.
  destruct Hstep as [self file m | self id pc pt | self item | self self' tasks Hclick
                    | self result].
  - repeat split; try (cbn; tauto).
    + cbn [add_file rows List.length]. lia.
    + intros r Hr Hv. exists r. cbn [add_file rows]. repeat split; try assumption.
      now right.
  - apply kept_file_loaded.
  - apply kept_same_rows; cbn; tauto.
  - destruct (clicked_cases self self' tasks Hclick) as [-> | ->].
    + apply kept_refl.
    + apply kept_same_rows; cbn; tauto.
  - destruct result; apply kept_same_rows; cbn; tauto.
Qed.

(** X8: whatever happens to the dialog later (files added, rows
    reporting, calendars selected, clicks on the import button,
    completions of the task), a dialog made insensitive by a submission is
    never made sensitive again, a closed dialog stays closed, a hidden
    spinner stays hidden, no row is removed and a visible row stays
    visible. *)
Theorem nothing_is_undone (self self' : GcalImportDialog) :
  steps self self' ->
  (sensitive self = false -> sensitive self' = false) /\
  (closed self = true -> closed self' = true) /\
  (placeholder_spinner_visible self = false -> placeholder_spinner_visible self' = false) /\
  (List.length (rows self) <= List.length (rows self'))%nat /\
  (forall r, In r (rows self) -> row_visible r = true ->
             exists r', In r' (rows self') /\ row_id r' = row_id r /\
                        row_file r' = row_file r /\ row_visible r' = true).
Proof.
  intros Hsteps. change (kept self self').
  induction Hsteps as [self | self mid self' _ IH Hstep].
  - apply kept_refl.
  - exact (kept_trans _ _ _ IH (kept_step _ _ Hstep)).
Qed.

Lemma nothing_is_undone_witness :
  sensitive (add_file (fst (on_events_created_cb (TaskBoolean true)
                              (start_import g_cancellable_new both_rows_loaded)))
               (sample_file "c.ics") true) = false.
Proof.
  apply (nothing_is_undone (start_import g_cancellable_new both_rows_loaded)).
  - eapply steps_more; [eapply steps_more; [apply steps_none|] |].
    + apply step_created.
    + apply step_add_file.
  - reflexivity.
Defined.

(** *** Any number of rows reporting *)

Lemma loaded_in_turn_n_events (reports : list (nat * option (list ICalComponent))) :
  forall self,
    n_events (loaded_in_turn reports self) =
    match reports with
    | [] => n_events self
    | _ :: _ => wrap_gint (n_events self + total_events reports)
    end.
Proof.
  unfold loaded_in_turn, total_events.
  induction reports as [|[id events] rest IH]; intros self; [reflexivity|].
  cbn [fold_left map fold_right fst snd]. rewrite IH.
  rewrite ImportDialogFacts.loaded_n_events.
  destruct rest as [|report rest].
  - cbn [map fold_right]. now rewrite Z.add_0_r.
  - rewrite ImportDialogFacts.wrap_gint_add_l. f_equal. lia.
Qed.

Lemma loaded_in_turn_title (reports : list (nat * option (list ICalComponent))) :
  forall self,
    reports <> [] ->
    title (loaded_in_turn reports self) =
    let n := n_events (loaded_in_turn reports self) in
    printf_d (g_dngettext "Import %d event" "Import %d events" n) n.
Proof.
  unfold loaded_in_turn.
  induction reports as [|[id events] rest IH]; intros self Hne; [contradiction|].
  cbn [fold_left fst snd]. destruct rest as [|report rest].
  - apply ImportDialogFacts.loaded_title.
  - apply IH. discriminate.
Qed.

Lemma total_events_permutation (reports reports' : list (nat * option (list ICalComponent))) :
  Permutation reports reports' -> total_events reports = total_events reports'.
Proof.
  unfold total_events. induction 1 as [| x l l' _ IH | x y l | l l' l'' _ IH1 _ IH2]; simpl.
  - reflexivity.
  - now rewrite IH.
  - lia.
  - now rewrite IH1.
Qed.

(** X9: when the file-loaded callbacks of any number of rows fire, the
    event count and the title they leave do not depend on the order in
    which they fire: the count is the sum of the reported numbers of
    events, added to the count before (modulo 2^32). *)
Theorem title_independent_of_loading_order
    (reports reports' : list (nat * option (list ICalComponent)))
    (self : GcalImportDialog) :
  Permutation reports reports' ->
  n_events (loaded_in_turn reports self) = n_events (loaded_in_turn reports' self) /\
  title (loaded_in_turn reports self) = title (loaded_in_turn reports' self) /\
  (reports <> [] ->
   n_events (loaded_in_turn reports self) = wrap_gint (n_events self + total_events reports)).
Proof.
  intros Hperm.
  assert (Hn : n_events (loaded_in_turn reports self) =
               n_events (loaded_in_turn reports' self)).
  { rewrite !loaded_in_turn_n_events.
    rewrite (total_events_permutation _ _ Hperm).
    destruct reports as [|r rest], reports' as [|r' rest']; try reflexivity.
    - apply Permutation_nil in Hperm. discriminate.
    - apply Permutation_sym, Permutation_nil in Hperm. discriminate. }
  split; [exact Hn|]. split.
  - destruct reports as [|r rest].
    + apply Permutation_nil in Hperm. now subst reports'.
    + assert (Hne' : reports' <> []).
      { intros ->. apply Permutation_sym, Permutation_nil in Hperm. discriminate. }
      rewrite !loaded_in_turn_title by (assumption || discriminate).
      cbv zeta. now rewrite Hn.
  - intros Hne. rewrite loaded_in_turn_n_events.
    destruct reports; [contradiction | reflexivity].
Qed.

Lemma title_independent_of_loading_order_witness :
  title (loaded_in_turn [(0%nat, Some [1; 2; 3]%nat); (1%nat, None); (2%nat, Some [4; 5]%nat)]
           two_files_added) =
  title (loaded_in_turn [(2%nat, Some [4; 5]%nat); (0%nat, Some [1; 2; 3]%nat); (1%nat, None)]
           two_files_added).
Proof.
  apply (title_independent_of_loading_order
           [(0%nat, Some [1; 2; 3]%nat); (1%nat, None); (2%nat, Some [4; 5]%nat)]
           [(2%nat, Some [4; 5]%nat); (0%nat, Some [1; 2; 3]%nat); (1%nat, None)]).
  apply Permutation_sym.
  apply (Permutation_cons_app
           [(0%nat, Some [1; 2; 3]%nat); (1%nat, None)] []
           (2%nat, Some [4; 5]%nat)).
  rewrite app_nil_r. apply Permutation_refl.
Defined.

(** *** From the worker thread to the completion *)


(** *** Binding list items *)

Lemma bound_in_turn_icon (bindings : list (CalendarItem * bool)) :
  forall grid,
    visibility_status_icon (bound_in_turn bindings grid) =
    if existsb hidden bindings then Some "eye-not-looking-symbolic"
    else visibility_status_icon grid.
Proof.
  unfold bound_in_turn.
  induction bindings as [|[calendar in_popover] rest IH]; intros grid; [reflexivity|].
  cbn [fold_left existsb fst snd]. rewrite IH. unfold hidden at 2. cbn [fst].
  cbn [on_combo_row_signal_factory_bind_cb visibility_status_icon].
  destruct (gcal_calendar_get_visible calendar); cbn [negb orb];
    [reflexivity | now destruct (existsb hidden rest)].
Qed.

(** X11: a list item bound to one calendar after another shows the
    name, the parent name and the colour of the calendar it was bound to
    last, but the indicator for calendars not shown in the views is only
    ever set, never cleared: it is shown as soon as one of the calendars
    bound so far was hidden, the last one or not. *)
Theorem hidden_indicator_is_never_cleared
    (bindings : list (CalendarItem * bool)) (calendar : CalendarItem) (in_popover : bool) :
  let grid := bound_in_turn (bindings ++ [(calendar, in_popover)])
                on_combo_row_signal_factory_setup_cb in
  grid_title grid = Some (gcal_calendar_get_name calendar) /\
  grid_subtitle grid = source_parent_name calendar /\
  color_icon grid = Some (gcal_calendar_get_color calendar, 16) /\
  size_request grid = (if in_popover then (250, -1) else (-1, -1)) /\
  visibility_status_icon grid =
    if (existsb hidden bindings || negb (gcal_calendar_get_visible calendar))%bool
    then Some "eye-not-looking-symbolic" else None.
Proof.
  cbv zeta. rewrite bound_in_turn_icon.
  unfold bound_in_turn. rewrite fold_left_app. cbn [fold_left fst snd].
  repeat split. rewrite existsb_app. cbn [existsb]. unfold hidden at 2. cbn [fst].
  now rewrite orb_false_r.
Qed.

End ImportDialogSetupFacts.

(** ** The search button: the callbacks of the entry and of the list *)

Module SearchButtonWidgetFacts.

Import SearchButton SearchButtonWidget.

(** *** Hiding the suggestions *)

(** What [hide_suggestions] leaves: the suggestions concealed and the
    entry empty; emptying an entry that held a text runs the text handler,
    which unbinds the list.  No query is submitted or dropped, and the
    popover, the stack and the widths of the entry are as they were. *)
Lemma hide_suggestions_effect (w : World) :
  exists w',
    hide_suggestions notify_text w = Some w' /\
    text (entry w') = EmptyString /\
    reveal_child w' = false /\
    results_listbox w' =
      (if String.eqb (text (entry w)) EmptyString then results_listbox w else None) /\
    outstanding w' = outstanding w /\
    popover_visible w' = popover_visible w /\
    stack_visible_child w' = stack_visible_child w /\
    width_chars (entry w') = width_chars (entry w) /\
    max_width_chars (entry w') = max_width_chars (entry w).
Proof.
  unfold hide_suggestions, seq, lift, gtk_editable_set_text.
  cbn [gtk_revealer_set_reveal_child entry].
  destruct (String.eqb (text (entry w)) EmptyString) eqn:Htext.
  - apply String.eqb_eq in Htext. eexists. split; [reflexivity|].
    cbn. repeat split. exact Htext.
  - unfold notify_text.
    rewrite SearchButtonFacts.text_changed_empty by reflexivity.
    eexists. split; [reflexivity|].
    cbn [cancellable store_text set_entry gtk_revealer_set_reveal_child].
    destruct (cancellable w); cbn; repeat split.
Qed.

(** X12: activating a row of the list hands exactly its hit to
    [gcal_search_hit_activate], conceals the suggestions and empties the
    entry; no query is submitted for the emptied text and none is dropped,
    and the list is unbound unless the entry was empty already. *)
Theorem row_activation_hides_suggestions
    (search_hit : GcalSearchHit) (self : GcalSearchButton) :
  exists self',
    on_results_listbox_row_activated_cb search_hit self = Some self' /\
    activated self' = search_hit :: activated self /\
    text (entry (world self')) = EmptyString /\
    reveal_child (world self') = false /\
    outstanding (world self') = outstanding (world self) /\
    results_listbox (world self') =
      (if String.eqb (text (entry (world self))) EmptyString
       then results_listbox (world self) else None) /\
    self_max_width_chars self' = self_max_width_chars self.
Proof.
  unfold on_results_listbox_row_activated_cb, in_world. cbn [world].
  destruct (hide_suggestions_effect (world self))
    as (w' & -> & Htext & Hreveal & Hlist & Hout & _).
  eexists. split; [reflexivity|]. cbn [world activated self_max_width_chars].
  repeat split; assumption.
Qed.

(** After the focus has left, the entry is empty with both widths zero. *)
Lemma focus_leave_collapses_entry_aux (w : World) :
  exists w',
    on_focus_controller_leave_cb w = Some w' /\
    entry w' = {| text := EmptyString; width_chars := 0; max_width_chars := 0 |}.
Proof.
  unfold on_focus_controller_leave_cb, seq, lift.
  set (w1 := gtk_stack_set_visible_child_name "button"
               (gtk_editable_set_max_width_chars 0 (gtk_editable_set_width_chars 0 w))).
  destruct (hide_suggestions_effect w1)
    as (w' & -> & Htext & _ & _ & _ & _ & _ & Hwidth & Hmax).
  unfold gtk_editable_set_text. rewrite Htext. cbn [String.eqb].
  exists w'. split; [reflexivity|].
  destruct (entry w') as [t wc mc]. cbn in Htext, Hwidth, Hmax. now subst.
Qed.

(** X13: when the focus leaves the entry, the entry is emptied and
    collapsed to width 0, the stack shows the button again and the
    suggestions are concealed; no query is submitted or dropped, and the
    popover is left as it is. *)
Theorem focus_leave_collapses_entry (w : World) :
  exists w',
    on_focus_controller_leave_cb w = Some w' /\
    entry w' = {| text := EmptyString; width_chars := 0; max_width_chars := 0 |} /\
    stack_visible_child w' = "button" /\
    reveal_child w' = false /\
    outstanding w' = outstanding w /\
    popover_visible w' = popover_visible w /\
    results_listbox w' =
      (if String.eqb (text (entry w)) EmptyString then results_listbox w else None).
Proof.
  unfold on_focus_controller_leave_cb, seq, lift.
  set (w1 := gtk_stack_set_visible_child_name "button"
               (gtk_editable_set_max_width_chars 0 (gtk_editable_set_width_chars 0 w))).
  destruct (hide_suggestions_effect w1)
    as (w' & -> & Htext & Hreveal & Hlist & Hout & Hpop & Hstack & Hwidth & Hmax).
  unfold gtk_editable_set_text. rewrite Htext. cbn [String.eqb].
  exists w'. split; [reflexivity|].
  split; [| repeat split; assumption].
  destruct (entry w') as [t wc mc]. cbn in Htext, Hwidth, Hmax. now subst.
Qed.

(** *** Expanding the entry *)

(** X14: a click on the button remembers the entry's maximum width if
    that is not zero and keeps the width remembered before otherwise; it
    expands the entry (width 1, the stack on the entry) to the width now
    remembered, or to 20 if that is zero, so never to zero, and leaves
    the text, the list and the queries alone.  After the focus has left,
    which sets the maximum width to zero, the next click gives the entry
    the maximum width it had after the first and remembers the same. *)
Theorem click_restores_the_width (self : GcalSearchButton) :
  let before := max_width_chars (entry (world self)) in
  let remembered := if before =? 0 then self_max_width_chars self else before in
  let expanded := on_button_clicked_cb self in
  self_max_width_chars expanded = remembered /\
  max_width_chars (entry (world expanded)) = (if remembered =? 0 then 20 else remembered) /\
  max_width_chars (entry (world expanded)) <> 0 /\
  width_chars (entry (world expanded)) = 1 /\
  stack_visible_child (world expanded) = "entry" /\
  text (entry (world expanded)) = text (entry (world self)) /\
  results_listbox (world expanded) = results_listbox (world self) /\
  outstanding (world expanded) = outstanding (world self) /\
  activated expanded = activated self /\
  exists collapsed,
    in_world on_focus_controller_leave_cb expanded = Some collapsed /\
    max_width_chars (entry (world collapsed)) = 0 /\
    max_width_chars (entry (world (on_button_clicked_cb collapsed))) =
      (if remembered =? 0 then 20 else remembered) /\
    self_max_width_chars (on_button_clicked_cb collapsed) = remembered.
Proof.
  cbv zeta.
  set (remembered := if max_width_chars (entry (world self)) =? 0
                     then self_max_width_chars self
                     else max_width_chars (entry (world self))).
  assert (Hremembered : self_max_width_chars (on_button_clicked_cb self) = remembered)
    by reflexivity.
  assert (Hexpanded : max_width_chars (entry (world (on_button_clicked_cb self))) =
                      (if remembered =? 0 then 20 else remembered)) by reflexivity.
  split; [exact Hremembered|]. split; [exact Hexpanded|]. split.
  { rewrite Hexpanded. destruct (remembered =? 0) eqn:Hz;
      [discriminate | now apply Z.eqb_neq]. }
  do 6 (split; [reflexivity|]).
  unfold in_world.
  destruct (focus_leave_collapses_entry_aux (world (on_button_clicked_cb self)))
    as (w' & -> & Hentry).
  eexists. split; [reflexivity|]. cbn [world self_max_width_chars].
  rewrite Hremembered.
  set (hits := activated (on_button_clicked_cb self)).
  unfold on_button_clicked_cb. cbn [world self_max_width_chars entry].
  rewrite Hentry. cbn [max_width_chars Z.eqb].
  cbn [gtk_stack_set_visible_child_name gtk_editable_set_max_width_chars
       gtk_editable_set_width_chars set_entry entry max_width_chars].
  repeat split.
Qed.

(** *** A search that fails *)

(** X16: when a query finishes without a model (the engine failed, or
    the query was cancelled), the list is unbound, the suggestions are
    concealed and the entry is emptied, whatever text it held; the query
    leaves the outstanding ones and no other query is submitted or
    dropped. *)
Theorem failed_search_empties_entry (w : World) (i : nat) (q : Query) :
  nth_error (outstanding w) i = Some q ->
  exists w',
    search_finished notify_text i None w = Some w' /\
    results_listbox w' = None /\
    text (entry w') = EmptyString /\
    reveal_child w' = false /\
    outstanding w' = firstn i (outstanding w) ++ skipn (S i) (outstanding w) /\
    popover_visible w' = popover_visible w.
Proof.
  intros Hq. unfold search_finished. rewrite Hq.
  unfold on_search_finished_cb, gcal_search_engine_search_finish.
  replace (if g_cancellable_is_cancelled (query_cancellable q) _ then None else None)
    with (@None GListModel) by (now destruct (g_cancellable_is_cancelled _ _)).
  unfold set_model, seq, lift.
  destruct (hide_suggestions_effect
              (gtk_list_box_bind_model None
                 (set_outstanding (firstn i (outstanding w) ++ skipn (S i) (outstanding w)) w)))
    as (w' & -> & Htext & Hreveal & Hlist & Hout & Hpop & _).
  exists w'. split; [reflexivity|].
  split; [| repeat split; assumption].
  rewrite Hlist. now destruct (String.eqb _ _).
Qed.

Lemma failed_search_empties_entry_witness :
  exists w',
    search_finished notify_text 0 None
      (gcal_search_engine_search (contains_summary "ab") 50 None
         (store_text "ab" gcal_search_button_init)) = Some w' /\
    results_listbox w' = None /\
    text (entry w') = EmptyString /\
    reveal_child w' = false /\
    outstanding w' = [] /\
    popover_visible w' = false.
Proof.
  apply (failed_search_empties_entry
           (gcal_search_engine_search (contains_summary "ab") 50 None
              (store_text "ab" gcal_search_button_init)) 0
           {| sexp_query := contains_summary "ab"; max_results := 50;
              query_cancellable := None |}).
  reflexivity.
Defined.

End SearchButtonWidgetFacts.

(** ** The calendar button *)

Module CalendarButtonFacts.

Import CalendarButton.

Lemma bind_rows_nth (model : list GcalCalendar) :
  forall first j,
    nth_error (bind_rows first model) j =
    option_map (create_row_func (first + j)) (nth_error model j).
Proof.
  induction model as [|calendar rest IH]; intros first j; simpl.
  - now destruct j.
  - destruct j as [|j]; simpl; [now rewrite Nat.add_0_r|].
    rewrite IH. now rewrite Nat.add_succ_r.
Qed.

(** Rows of later calendars are not bound to an earlier one. *)
Lemma sync_check_earlier (model : list GcalCalendar) (setting : bool) :
  forall first position,
    (position < first)%nat ->
    map (sync_check position setting) (bind_rows first model) = bind_rows first model.
Proof.
  induction model as [|calendar rest IH]; intros first position Hlt; simpl; [reflexivity|].
  rewrite IH by lia. unfold sync_check at 1. cbn [create_row_func row_calendar].
  replace (Nat.eqb first position) with false; [reflexivity|].
  symmetry. apply Nat.eqb_neq. lia.
Qed.

(** Writing row [j] and then every row bound to its calendar gives the
    rows of the model with that calendar changed. *)
Lemma rows_follow_calendar (model : list GcalCalendar) (setting : bool) :
  forall first j,
    (j < List.length model)%nat ->
    map (sync_check (first + j) setting) (set_active_at j setting (bind_rows first model)) =
    bind_rows first (set_visible_at j setting model).
Proof.
  induction model as [|calendar rest IH]; intros first j Hj; simpl in Hj; [lia|].
  destruct j as [|j]; cbn [bind_rows set_active_at set_visible_at map].
  - rewrite Nat.add_0_r. rewrite sync_check_earlier by lia.
    unfold sync_check. cbn [with_active create_row_func row_calendar].
    now rewrite Nat.eqb_refl.
  - replace (first + S j)%nat with (S first + j)%nat by lia.
    rewrite IH by lia. unfold sync_check. cbn [create_row_func row_calendar].
    replace (Nat.eqb first (S first + j)) with false; [reflexivity|].
    symmetry. apply Nat.eqb_neq. lia.
Qed.

Lemma set_visible_at_nth (model : list GcalCalendar) (visible : bool) :
  forall position k,
    nth_error (set_visible_at position visible model) k =
    if Nat.eqb k position
    then option_map (gcal_calendar_set_visible visible) (nth_error model k)
    else nth_error model k.
Proof.
  induction model as [|calendar rest IH]; intros position k.
  - destruct position, k; cbn; try reflexivity; now destruct (Nat.eqb k position).
  - destruct position as [|position], k as [|k]; cbn [set_visible_at nth_error Nat.eqb];
      try reflexivity.
    apply IH.
Qed.

Lemma set_visible_at_twice (model : list GcalCalendar) (v v' : bool) :
  forall position,
    set_visible_at position v' (set_visible_at position v model) =
    set_visible_at position v' model.
Proof.
  induction model as [|calendar rest IH]; intros [|position]; cbn; try reflexivity.
  now rewrite IH.
Qed.

Lemma set_visible_at_same (model : list GcalCalendar) :
  forall position calendar,
    nth_error model position = Some calendar ->
    set_visible_at position (gcal_calendar_get_visible calendar) model = model.
Proof.
  induction model as [|c rest IH]; intros [|position] calendar Hnth; cbn in *;
    try discriminate.
  - injection Hnth as ->. now destruct calendar.
  - now rewrite (IH position calendar Hnth).
Qed.

(** Activating row [j] of a button that shows [model]. *)
Lemma activated_row (model : list GcalCalendar) (j : nat) :
  on_listbox_row_activated_cb j (gcal_calendar_button_set_context model) =
  gcal_calendar_button_set_context (toggled j model).
Proof.
  unfold on_listbox_row_activated_cb, gtk_check_button_set_active, toggled.
  cbn [gcal_calendar_button_set_context calendar_listbox calendars].
  rewrite bind_rows_nth. cbn [Nat.add].
  destruct (nth_error model j) as [calendar|] eqn:Hnth; cbn [option_map]; [|reflexivity].
  cbn [create_row_func check_active row_calendar]. rewrite Hnth.
  rewrite !Bool.eqb_negb2.
  unfold gcal_calendar_button_set_context. f_equal.
  apply (rows_follow_calendar model (negb (gcal_calendar_get_visible calendar)) 0 j).
  apply nth_error_Some. congruence.
Qed.

(** X15: activating row j of the list of a button that shows a list of
    calendars toggles the visibility of the j-th calendar and of no other,
    and leaves every check button equal to the visibility of its calendar:
    the button is the one that shows the calendars so changed.  Activating
    the same row again gives back the button that was there; activating a
    row that does not exist changes nothing. *)
Theorem row_activation_toggles_one_calendar (model : list GcalCalendar) (j : nat) :
  on_listbox_row_activated_cb j (gcal_calendar_button_set_context model) =
    gcal_calendar_button_set_context (toggled j model) /\
  (forall k,
      nth_error (toggled j model) k =
      if Nat.eqb k j
      then option_map (fun calendar =>
                         gcal_calendar_set_visible (negb (gcal_calendar_get_visible calendar))
                           calendar) (nth_error model k)
      else nth_error model k) /\
  on_listbox_row_activated_cb j
    (on_listbox_row_activated_cb j (gcal_calendar_button_set_context model)) =
    gcal_calendar_button_set_context model /\
  ((List.length model <= j)%nat ->
   on_listbox_row_activated_cb j (gcal_calendar_button_set_context model) =
     gcal_calendar_button_set_context model).
Proof.
  split; [apply activated_row|]. split; [| split].
  - intros k. unfold toggled.
    destruct (nth_error model j) as [calendar|] eqn:Hnth.
    + rewrite set_visible_at_nth. destruct (Nat.eqb k j) eqn:Hk; [|reflexivity].
      apply Nat.eqb_eq in Hk. subst k. now rewrite Hnth.
    + destruct (Nat.eqb k j) eqn:Hk; [|reflexivity].
      apply Nat.eqb_eq in Hk. subst k. now rewrite Hnth.
  - rewrite !activated_row. f_equal. unfold toggled.
    destruct (nth_error model j) as [calendar|] eqn:Hnth; rewrite ?Hnth; [|reflexivity].
    rewrite set_visible_at_nth, Nat.eqb_refl, Hnth. cbn [option_map].
    rewrite set_visible_at_twice. cbn [gcal_calendar_set_visible gcal_calendar_get_visible].
    rewrite negb_involutive. now apply set_visible_at_same.
  - intros Hj. rewrite activated_row. unfold toggled.
    now rewrite (proj2 (nth_error_None model j) Hj).
Qed.

End CalendarButtonFacts.
